(** * Statistikkportalen: selection, cardinality and cube addressing

    A shallow embedding of the selection/query builder and the cell count
    ([variable-select-status.js]), the codelist dropdown handler
    ([variable-select-codelists.js]), the cube addressing of the table view
    ([table-display.js]) and the layout dialog ([table-rotation.js]).

    Conventions of the embedding.
    - JavaScript numbers that the code computes with are integers (category
      indices, sizes, counts); they are modelled by [Z], exact below 2^53,
      and [jsnum] adds the one non-integer the code can produce, [NaN].
    - Strings are Rocq strings (bytes). The only string tests of the code
      are equality, concatenation and the search of ASCII patterns, which
      agree on UTF-8 bytes and on UTF-16 code units.
    - The DOM is modelled by the data the code reads back from it: a
      variable card carries its [data-dimension], its [data-elimination]
      flag, its value-list container ([data-mode] and the items with their
      [data-code], [data-valuemap] and [selected] class) and the value of
      its top-n input. *)

From Stdlib Require Import ZArith Lia String Ascii List Permutation Sorted.
From stdpp Require Import base option list gmap strings sorting.

Local Open Scope Z_scope.
Local Open Scope string_scope.
Local Open Scope list_scope.

(** ** JavaScript values *)

(** A number as the code can produce one: an integer or [NaN]. *)
Inductive jsnum : Type :=
  | Num (z : Z)
  | NaN.

(** A cell of the value array, or what reading it returns. *)
Inductive jsval : Type :=
  | JNull
  | JUndefined
  | JNumber (z : Z).

#[global] Instance jsnum_eq_dec : EqDecision jsnum.
Proof. solve_decision. Defined.

#[global] Instance jsval_eq_dec : EqDecision jsval.
Proof. solve_decision. Defined.

(** [a + b] and [a * b] on numbers: [NaN] is absorbing. *)
Definition js_add (a b : jsnum) : jsnum :=
  match a, b with
  | Num x, Num y => Num (x + y)
  | _, _ => NaN
  end.

Definition js_mul (a b : jsnum) : jsnum :=
  match a, b with
  | Num x, Num y => Num (x * y)
  | _, _ => NaN
  end.

(** [arr[i]] used as a number: an index past the end reads [undefined],
    which arithmetic turns into [NaN]. *)
Definition num_at (arr : list Z) (i : nat) : jsnum :=
  match arr !! i with
  | Some z => Num z
  | None => NaN
  end.

(** An array of indices may hold [undefined] (pushed by [getDataValue] when a
    header is too short): [None] stands for it. *)
Definition index_at (arr : list (option Z)) (i : nat) : jsnum :=
  match arr !! i with
  | Some (Some z) => Num z
  | _ => NaN
  end.

(** [arr[k]] for a computed key [k]: only a non-negative integer below the
    length names an element. *)
Definition array_get (arr : list jsval) (k : jsnum) : jsval :=
  match k with
  | Num z => if decide (0 <= z) then default JUndefined (arr !! Z.to_nat z)
             else JUndefined
  | NaN => JUndefined
  end.

(** [arr.indexOf(x)]: [None] stands for -1. *)
Fixpoint indexOf (x : string) (arr : list string) : option nat :=
  match arr with
  | [] => None
  | y :: rest => if decide (y = x) then Some 0%nat else S <$> indexOf x rest
  end.

(** ** Cube addressing (table-display.js, variable-select-state.js) *)

(** The loop of [calculateFlatIndex]: [n] is [i + 1], so the loop runs while
    [i >= 0]; the body adds [indices[i] * multiplier] and multiplies the
    multiplier by [sizes[i]]. *)
Fixpoint flat_loop (indices : list (option Z)) (sizes : list Z) (n : nat)
    (flatIndex multiplier : jsnum) : jsnum :=
  match n with
  | O => flatIndex
  | S i =>
      flat_loop indices sizes i
        (js_add flatIndex (js_mul (index_at indices i) multiplier))
        (js_mul multiplier (num_at sizes i))
  end.

Definition calculateFlatIndex (indices : list (option Z)) (sizes : list Z) : jsnum :=
  flat_loop indices sizes (length sizes) (Num 0) (Num 1).

(** A header combination built by [buildDimensionCombinations]. *)
Record header : Type := Header {
  codes : list string;
  indices : list Z
}.

(** [AppState.tableLayout]. *)
Record layout : Type := Layout {
  rows : list string;
  columns : list string
}.

(** The fetched cube: [data.id], [data.size], [data.value]. *)
Record dataset : Type := Dataset {
  data_id : list string;
  data_size : list Z;
  data_value : list jsval
}.

(** The body of the [forEach] of [getDataValue]: the index pushed for one
    dimension. *)
Definition fullIndexOf (lay : layout) (rowHeader colHeader : header)
    (dimCode : string) : option Z :=
  match indexOf dimCode (rows lay) with
  | Some rowIndex => indices rowHeader !! rowIndex
  | None =>
      match indexOf dimCode (columns lay) with
      | Some colIndex => indices colHeader !! colIndex
      | None => Some 0
      end
  end.

Definition fullIndices (lay : layout) (data : dataset)
    (rowHeader colHeader : header) : list (option Z) :=
  map (fullIndexOf lay rowHeader colHeader) (data_id data).

Definition getDataValue (currentData : option dataset) (lay : layout)
    (rowHeader colHeader : header) : jsval :=
  match currentData with
  | None => JNull
  | Some data =>
      let flatIndex :=
        calculateFlatIndex (fullIndices lay data rowHeader colHeader) (data_size data) in
      array_get (data_value data) flatIndex
  end.

(** The addressing as the specification words it: strides from the right,
    the last one 1, each earlier one the next stride times the next size. *)
Fixpoint spec_strides (sizes : list Z) : list Z :=
  match sizes with
  | [] => []
  | _ :: rest =>
      match spec_strides rest, rest with
      | stride :: _, size :: _ => stride * size
      | _, _ => 1
      end :: spec_strides rest
  end.

(** The flat offset of the specification: the sum of index times stride. *)
Fixpoint spec_offset (idx strides : list Z) : Z :=
  match idx, strides with
  | i :: idx', s :: strides' => i * s + spec_offset idx' strides'
  | _, _ => 0
  end.

(** The number of cells of a cube. *)
Definition cells (sizes : list Z) : Z := foldr Z.mul 1 sizes.

(** An index vector within the sizes. *)
Definition in_range (idx sizes : list Z) : Prop :=
  Forall2 (fun i s => 0 <= i < s) idx sizes.

(** ** Strings and numbers of the selection code *)

(** [s.toLowerCase()] on the ASCII letters; the letters of the pattern the
    code searches for are ASCII. *)
Definition lower_ascii (c : ascii) : ascii :=
  let n := nat_of_ascii c in
  if (65 <=? n)%nat && (n <=? 90)%nat then ascii_of_nat (n + 32) else c.

Fixpoint toLowerCase (s : string) : string :=
  match s with
  | EmptyString => EmptyString
  | String c rest => String (lower_ascii c) (toLowerCase rest)
  end.

(** [s.includes(pat)]. *)
Fixpoint includes (pat s : string) : bool :=
  String.prefix pat s ||
  match s with
  | EmptyString => false
  | String _ rest => includes pat rest
  end.

(** The time-dimension heuristic, written out at each of its uses in the
    source: [dimCode === 'Tid' || dimCode.toLowerCase().includes('tid')]. *)
Definition isTimeDim (dimCode : string) : bool :=
  bool_decide (dimCode = "Tid") || includes "tid" (toLowerCase dimCode).

Definition is_space (c : ascii) : bool :=
  let n := nat_of_ascii c in
  (n =? 32)%nat || ((9 <=? n)%nat && (n <=? 13)%nat).

Fixpoint skip_space (s : string) : string :=
  match s with
  | String c rest => if is_space c then skip_space rest else s
  | EmptyString => EmptyString
  end.

Definition digit_of (c : ascii) : option Z :=
  let n := nat_of_ascii c in
  if (48 <=? n)%nat && (n <=? 57)%nat then Some (Z.of_nat n - 48) else None.

(** The longest prefix of decimal digits; [None] when there is none. *)
Fixpoint parse_digits (s : string) (acc : option Z) : option Z :=
  match s with
  | EmptyString => acc
  | String c rest =>
      match digit_of c with
      | Some d => parse_digits rest (Some (10 * default 0 acc + d))
      | None => acc
      end
  end.

(** [parseInt(s, 10)]: leading (ASCII) white space, an optional sign, then
    digits; [NaN] without a digit. *)
Definition parseInt (s : string) : jsnum :=
  let s1 := skip_space s in
  let '(sign, s2) :=
    match s1 with
    | String "-" rest => (-1, rest)
    | String "+" rest => (1, rest)
    | _ => (1, s1)
    end in
  match parse_digits s2 None with
  | Some n => Num (sign * n)
  | None => NaN
  end.

(** [Math.min(a, b)]. *)
Definition js_min (a b : jsnum) : jsnum :=
  match a, b with
  | Num x, Num y => Num (Z.min x y)
  | _, _ => NaN
  end.

(** [o?.value || dflt] for a text input: a missing input and an empty value
    are both falsy. *)
Definition value_or (o : option string) (dflt : string) : string :=
  match o with
  | Some s => if decide (s = "") then dflt else s
  | None => dflt
  end.

(** A JavaScript [Set] of strings: insertion order, no duplicate. *)
Definition set_add (x : string) (s : list string) : list string :=
  if decide (x ∈ s) then s else s ++ [x].

(** [values.sort((a, b) => key(a) - key(b))]: the sort is stable. *)
Fixpoint insert_by (key : string -> Z) (x : string) (l : list string) : list string :=
  match l with
  | [] => [x]
  | y :: rest => if Z.leb (key x) (key y) then x :: l else y :: insert_by key x rest
  end.

Definition sort_by (key : string -> Z) (l : list string) : list string :=
  foldr (insert_by key) [] l.

(** ** Metadata, codelists and the variable cards *)

(** [dimension.category]: the labels in the order [Object.keys] lists them,
    and the index map the code guards with [?.]. *)
Record category : Type := Category {
  cat_label : list (string * string);
  cat_index : option (gmap string Z)
}.

(** One codelist reference of [extension.codelists]. *)
Record codelistRef : Type := CodelistRef {
  ref_id : string;
  ref_label : string
}.

Record dimension : Type := Dimension {
  dim_category : category;
  ext_elimination : bool;          (* extension?.elimination === true *)
  ext_codelists : list codelistRef
}.

Record metadata : Type := Metadata {
  md_id : list string;
  md_dimension : gmap string dimension
}.

(** An entry of [codelistInfo.values]. *)
Record codelistValue : Type := CodelistValue {
  cv_code : string;
  cv_label : string;
  cv_valueMap : list string
}.

(** A value of [activeCodelists]. *)
Record codelistInfo : Type := CodelistInfo {
  codelistId : string;
  cl_elimination : bool;
  isAggregated : bool;
  cl_values : list codelistValue;
  originalCodes : list string      (* a Set, in insertion order *)
}.

(** What [item.dataset.valuemap] holds and what [JSON.parse] makes of it. *)
Inductive valuemapAttr : Type :=
  | NoValuemap                       (* attribute absent or empty: falsy *)
  | BadJson                          (* JSON.parse throws *)
  | JsonArray (valueMap : list string)
  | JsonOther.                       (* parses, but not to an array *)

(** A [.value-list-item]. *)
Record valueItem : Type := ValueItem {
  data_code : string;
  data_valuemap : valuemapAttr;
  selected : bool
}.

(** A [.value-list-container]. *)
Record container : Type := Container {
  data_mode : string;
  items : list valueItem
}.

(** A [.codelist-dropdown]. *)
Record dropdown : Type := Dropdown {
  dropdown_value : string;
  dropdown_disabled : bool
}.

(** A [.variable-card]. *)
Record card : Type := Card {
  data_dimension : string;
  data_elimination : bool;           (* dataset.elimination === 'true' *)
  value_list_container : option container;
  top_n_input : option string;       (* the input's value, if there is one *)
  codelist_dropdown : option dropdown
}.

(** The module state of the variable-select files, [AppState] and the part
    of the document they read. *)
Record session : Type := Session {
  tableMetadata : option metadata;
  activeCodelists : gmap string (option codelistInfo);
  dimensionValueOrder : gmap string (list string);
  activeCodelistIds : gmap string string;
  cards : list card;
  cell_count_display : bool;         (* the element exists *)
  shown_errors : list string         (* the messages passed to showError *)
}.

(** [activeCodelists[dimCode]] as a condition: [null] and a missing key are
    both falsy. *)
Definition activeCodelist (st : session) (dimCode : string) : option codelistInfo :=
  mjoin (activeCodelists st !! dimCode).

Definition selectedItems (cont : container) : list valueItem :=
  List.filter selected (items cont).

(** ** Cardinality (variable-select-status.js) *)

Definition getTrueDimensionValueCount (st : session) (dimCode : string) : Z :=
  match activeCodelist st dimCode with
  | Some codelistInfo => Z.of_nat (length (originalCodes codelistInfo))
  | None =>
      match tableMetadata st with
      | Some md =>
          match md_dimension md !! dimCode with
          | Some dim => Z.of_nat (length (cat_label (dim_category dim)))
          | None => 0
          end
      | None => 0
      end
  end.

(** The inner [forEach] of the specific mode under a codelist. *)
Definition expandedCount (sel : list valueItem) : Z :=
  foldl (fun n item =>
           n + match data_valuemap item with
               | JsonArray valueMap => Z.of_nat (length valueMap)
               | _ => 1
               end) 0 sel.

(** [dimSelectedCount] of one card that has a container. *)
Definition dimSelectedCount (st : session) (c : card) (cont : container) : jsnum :=
  let trueCount := getTrueDimensionValueCount st (data_dimension c) in
  if decide (data_mode cont = "star") then Num trueCount
  else if decide (data_mode cont = "top") then
    js_min (parseInt (value_or (top_n_input c) "12")) (Num trueCount)
  else
    match activeCodelist st (data_dimension c) with
    | Some _ => Num (expandedCount (selectedItems cont))
    | None => Num (Z.of_nat (length (selectedItems cont)))
    end.

(** The four locals of [updateSelectionCellCount]. *)
Record cellCount : Type := CellCount {
  selectedCells : Z;
  maxCells : Z;
  hasIncludedDimension : bool;
  hasMissingMandatory : bool
}.

(** The card is left out of the count: nothing selected, specific mode,
    optional dimension. *)
Definition skippedCard (c : card) (cont : container) : bool :=
  bool_decide (selectedItems cont = []) &&
  bool_decide (data_mode cont = "specific") &&
  data_elimination c.

Definition cellCountStep (st : session) (acc : cellCount) (c : card) : cellCount :=
  match value_list_container c with
  | None => acc
  | Some cont =>
      if skippedCard c cont then acc
      else
        let n := dimSelectedCount st c cont in
        {| selectedCells :=
             match n with
             | Num z => if decide (0 < z) then selectedCells acc * z else selectedCells acc
             | NaN => selectedCells acc
             end;
           maxCells := maxCells acc * getTrueDimensionValueCount st (data_dimension c);
           hasIncludedDimension := true;
           hasMissingMandatory :=
             hasMissingMandatory acc ||
             (bool_decide (n = Num 0) && negb (data_elimination c)) |}
  end.

(** The two totals after the loop and its two corrections. *)
Definition cellTotals (st : session) : Z * Z :=
  let acc := foldl (cellCountStep st) (CellCount 1 1 false false) (cards st) in
  let sel := if hasMissingMandatory acc then 0 else selectedCells acc in
  if hasIncludedDimension acc then (sel, maxCells acc) else (0, 0).

Definition updateSelectionCellCount (st : session) : Z :=
  if cell_count_display st then
    match tableMetadata st with
    | Some _ => fst (cellTotals st)
    | None => 0
    end
  else 0.

(** ** Query construction and validation (variable-select-status.js) *)

(** A value of the query object: an array of codes or a string. *)
Inductive qvalue : Type :=
  | QCodes (l : list string)
  | QString (s : string).

#[global] Instance qvalue_eq_dec : EqDecision qvalue.
Proof. solve_decision. Defined.

(** The expansion of the selected items through their value maps: the body
    of the [forEach] adds every code of a parsed array to the set. *)
Definition expandStep (acc : list string) (item : valueItem) : list string :=
  match data_valuemap item with
  | JsonArray valueMap => foldl (fun s code => set_add code s) acc valueMap
  | _ => acc
  end.

Definition expandedCodes (sel : list valueItem) : list string :=
  foldl expandStep [] sel.

(** [tableMetadata?.dimension[dimCode]?.category?.index]. *)
Definition categoryIndex (st : session) (dimCode : string) : option (gmap string Z) :=
  md ← tableMetadata st;
  dim ← md_dimension md !! dimCode;
  cat_index (dim_category dim).

(** [values] of the specific mode before the time ordering: the codes of
    the selected items, expanded when a codelist is active. *)
Definition selectedValues (st : session) (c : card) (cont : container) : list string :=
  match activeCodelist st (data_dimension c) with
  | Some _ => expandedCodes (selectedItems cont)
  | None => map data_code (selectedItems cont)
  end.

(** The comparator key of the time ordering: [indexMap[a] ?? 0]. *)
Definition indexKey (indexMap : gmap string Z) (a : string) : Z :=
  default 0 (indexMap !! a).

(** [values] of the specific mode, after the time ordering. *)
Definition specificValues (st : session) (c : card) (cont : container) : list string :=
  let values := selectedValues st c cont in
  if isTimeDim (data_dimension c) then
    match categoryIndex st (data_dimension c) with
    | Some indexMap => sort_by (indexKey indexMap) values
    | None => values
    end
  else values.

(** What one card assigns to [selection[dimCode]]; [None] when the callback
    returns without assigning. *)
Definition cardSelection (st : session) (c : card) : option qvalue :=
  match value_list_container c with
  | None => None
  | Some cont =>
      if decide (data_mode cont = "star") then
        match activeCodelist st (data_dimension c) with
        | Some codelistInfo => Some (QCodes (originalCodes codelistInfo))
        | None => Some (QString "*")
        end
      else if decide (data_mode cont = "top") then
        Some (QString ("top(" ++ value_or (top_n_input c) "10" ++ ")")%string)
      else
        let values := specificValues st c cont in
        if data_elimination c && bool_decide (values = []) then None
        else Some (QCodes values)
  end.

(** The body of the [forEach] of [getVariableSelection]. *)
Definition selectionStep (st : session) (selection : gmap string qvalue) (c : card)
    : gmap string qvalue :=
  match cardSelection st c with
  | Some v => <[data_dimension c := v]> selection
  | None => selection
  end.

Definition getVariableSelection (st : session) : gmap string qvalue :=
  foldl (selectionStep st) ∅ (cards st).

(** [document.querySelector('.variable-card[data-dimension="..."]')]: the
    first card of the dimension. *)
Definition findCard (st : session) (dimCode : string) : option card :=
  List.find (fun c => bool_decide (data_dimension c = dimCode)) (cards st).

(** The effective elimination flag [validateSelection] reads for a dimension;
    without a card the dimension counts as mandatory. *)
Definition isElimination (st : session) (dimCode : string) : bool :=
  match findCard st dimCode with
  | Some c => data_elimination c
  | None => false
  end.

(** The two tests of the loop body: [!dimSelection] and the empty array. *)
Definition hasValues (dimSelection : option qvalue) : bool :=
  match dimSelection with
  | None => false
  | Some (QString s) => negb (bool_decide (s = ""))
  | Some (QCodes l) => negb (bool_decide (l = []))
  end.

Definition validateSelection (st : session) (selection : gmap string qvalue) : bool :=
  match tableMetadata st with
  | None => false
  | Some md =>
      forallb (fun dimCode =>
                 isElimination st dimCode || hasValues (selection !! dimCode))
              (md_id md)
  end.

(** ** Codelists (variable-select-codelists.js) *)

(** An entry of the [values] of a codelist resource. [raw_valueMap] is
    [Some] when the field is an array. *)
Record rawCodelistItem : Type := RawCodelistItem {
  raw_code : option string;
  raw_label : option string;
  raw_valueMap : option (list string)
}.

(** A codelist resource as [api.getCodeList] resolves it. [cd_values] is
    [Some] when the field is an array. *)
Record codelistData : Type := CodelistData {
  cd_id : option string;
  cd_elimination : bool;             (* elimination === true *)
  cd_values : option (list rawCodelistItem)
}.

(** The three results of [extractCodelistCodes]. *)
Record extracted : Type := Extracted {
  ex_isAggregated : bool;
  ex_values : list codelistValue;
  ex_originalCodes : list string
}.

(** A string is truthy when it is there and not empty. *)
Definition truthy (o : option string) : option string :=
  match o with
  | Some s => if decide (s = "") then None else Some s
  | None => None
  end.

(** The body of the [forEach] of [extractCodelistCodes]. *)
Definition extractStep (acc : extracted) (item : rawCodelistItem) : extracted :=
  match truthy (raw_code item) with
  | None => acc
  | Some code =>
      let valueMap :=
        match raw_valueMap item with
        | Some (c :: rest) => c :: rest
        | _ => [code]
        end in
      {| ex_isAggregated :=
           ex_isAggregated acc || negb (bool_decide (valueMap = [code]));
         ex_values :=
           ex_values acc ++
           [CodelistValue code (default code (truthy (raw_label item))) valueMap];
         ex_originalCodes :=
           foldl (fun s c => if decide (c = "") then s else set_add c s)
                 (ex_originalCodes acc) valueMap |}
  end.

Definition extractCodelistCodes (data : codelistData) : extracted :=
  match cd_values data with
  | None => Extracted false [] []
  | Some vals => foldl extractStep (Extracted false [] []) vals
  end.

(** The items [renderCodelistValues] writes into the container. *)
Definition renderCodelistValues (codelistValues : list codelistValue) : list valueItem :=
  map (fun item => ValueItem (cv_code item) (JsonArray (cv_valueMap item)) false)
      codelistValues.

(** The ordering of [renderValueList] under a pre-loaded codelist order: the
    preferred codes that the dimension has, each once, then the others. *)
Definition preferredOrder (codes preferred : list string) : list string :=
  let '(ordered, remaining) :=
    foldl (fun '(ordered, remaining) code =>
             if decide (code ∈ remaining)
             then (ordered ++ [code], List.filter (fun r => negb (bool_decide (r = code))) remaining)
             else (ordered, remaining))
          ([], codes) preferred in
  ordered ++ List.filter (fun code => bool_decide (code ∈ remaining)) codes.

(** The items [renderValueList] writes: at most 500, none selected. *)
Definition renderValueList (st : session) (dimCode : string) (dim : dimension)
    (isTime : bool) : list valueItem :=
  let codes := map fst (cat_label (dim_category dim)) in
  let codes :=
    if isTime then rev codes
    else match dimensionValueOrder st !! dimCode with
         | Some preferred => preferredOrder codes preferred
         | None => codes
         end in
  map (fun code => ValueItem code NoValuemap false) (take 500 codes).

(** Updates of one card. *)
Definition set_items (its : list valueItem) (c : card) : card :=
  match value_list_container c with
  | Some cont =>
      Card (data_dimension c) (data_elimination c)
           (Some (Container (data_mode cont) its)) (top_n_input c) (codelist_dropdown c)
  | None => c
  end.

Definition updateEliminationBadge (elimination : bool) (c : card) : card :=
  Card (data_dimension c) elimination (value_list_container c) (top_n_input c)
       (codelist_dropdown c).

Definition set_disabled (b : bool) (c : card) : card :=
  Card (data_dimension c) (data_elimination c) (value_list_container c) (top_n_input c)
       ((fun d => Dropdown (dropdown_value d) b) <$> codelist_dropdown c).

(** The end of the change handler: specific mode, nothing selected. *)
Definition resetSelection (c : card) : card :=
  match value_list_container c with
  | Some cont =>
      Card (data_dimension c) (data_elimination c)
           (Some (Container "specific"
                    (map (fun it => ValueItem (data_code it) (data_valuemap it) false)
                         (items cont))))
           (top_n_input c) (codelist_dropdown c)
  | None => c
  end.

Definition with_cards (st : session) (cs : list card) : session :=
  Session (tableMetadata st) (activeCodelists st) (dimensionValueOrder st)
          (activeCodelistIds st) cs (cell_count_display st) (shown_errors st).

Definition on_card (k : nat) (f : card -> card) (st : session) : session :=
  with_cards st (alter f k (cards st)).

Definition with_codelist (st : session) (dimCode : string) (info : option codelistInfo)
    (ids : gmap string string) : session :=
  Session (tableMetadata st) (<[dimCode := info]> (activeCodelists st))
          (dimensionValueOrder st) ids (cards st) (cell_count_display st)
          (shown_errors st).

Definition showError (message : string) (st : session) : session :=
  Session (tableMetadata st) (activeCodelists st) (dimensionValueOrder st)
          (activeCodelistIds st) (cards st) (cell_count_display st)
          (shown_errors st ++ [message]).

(** [tableMetadata.dimension[dimCode]]. *)
Definition metaDimension (st : session) (dimCode : string) : option dimension :=
  md ← tableMetadata st; md_dimension md !! dimCode.

(** [dropdown.value] of the dropdown of card [k], read when the change event
    fires: the id of the chosen codelist, empty for "Velg fritt". Without a
    dropdown there is no handler. *)
Definition chosenCodelist (st : session) (k : nat) : option string :=
  c ← cards st !! k; dropdown_value <$> codelist_dropdown c.

(** The branch of the change handler for the empty id: no [await]. The
    codelist is removed, the base values and the dimension's own elimination
    flag are restored and the selection is reset. A missing dimension makes
    [dimension.extension] throw, which ends the handler there. *)
Definition codelistChange_free (st : session) (k : nat) : session :=
  match cards st !! k with
  | None => st
  | Some c =>
      let dimCode := data_dimension c in
      let st1 := with_codelist st dimCode None (delete dimCode (activeCodelistIds st)) in
      match metaDimension st1 dimCode with
      | None => st1
      | Some dim =>
          on_card k
            (fun c => resetSelection
               (updateEliminationBadge (ext_elimination dim)
                  (set_items (renderValueList st1 dimCode dim (isTimeDim dimCode)) c)))
            st1
      end
  end.

(** The branch for a codelist id, up to its [await]: the dropdown is disabled
    and the fetch starts. *)
Definition codelistChange_begin (st : session) (k : nat) : session :=
  on_card k (set_disabled true) st.

(** The same branch from the point where [safeApiCall] settles, on the state
    of that moment. [fetched] is [None] when [api.getCodeList] rejected:
    [safeApiCall] has then passed 'Kunne ikke laste kodeliste' to [showError]
    and returned [null]. *)
Definition codelistChange_end (st : session) (k : nat) (codelistId : string)
    (fetched : option codelistData) : session :=
  match cards st !! k with
  | None => st
  | Some c =>
      let dimCode := data_dimension c in
      let st1 :=
        match fetched with
        | None => showError "Kunne ikke laste kodeliste" st
        | Some _ => st
        end in
      let st2 := on_card k (set_disabled false) st1 in
      let st3 :=
        match fetched with
        | None => st2
        | Some codelistData =>
            let codelistInfo := extractCodelistCodes codelistData in
            match metaDimension st2 dimCode with
            | None => st2          (* TypeError, caught: only logged *)
            | Some dim =>
                let effectiveElimination :=
                  ext_elimination dim || cd_elimination codelistData in
                let info :=
                  CodelistInfo codelistId effectiveElimination
                    (ex_isAggregated codelistInfo) (ex_values codelistInfo)
                    (ex_originalCodes codelistInfo) in
                on_card k
                  (fun c => updateEliminationBadge effectiveElimination
                     (set_items (renderCodelistValues (ex_values codelistInfo)) c))
                  (with_codelist st2 dimCode (Some info)
                     (<[dimCode := codelistId]> (activeCodelistIds st2)))
            end
        end in
      on_card k resetSelection st3
  end.

(** The whole handler of the dropdown of card [k], when nothing else runs
    during the fetch. *)
Definition codelistChange (st : session) (k : nat) (fetched : option codelistData)
    : session :=
  match chosenCodelist st k with
  | None => st
  | Some codelistId =>
      if decide (codelistId = "") then codelistChange_free st k
      else codelistChange_end (codelistChange_begin st k) k codelistId fetched
  end.

(** The specification's reading of a failed resolution: afterwards the
    dimension of card [k] has no active codelist, its card carries the
    dimension's own elimination flag and lists the base categories. *)
Definition spec_falls_back (st st' : session) (k : nat) : Prop :=
  forall c dim,
    cards st' !! k = Some c -> metaDimension st (data_dimension c) = Some dim ->
    activeCodelist st' (data_dimension c) = None
    /\ data_elimination c = ext_elimination dim
    /\ (items <$> value_list_container c) =
       Some (renderValueList st (data_dimension c) dim (isTimeDim (data_dimension c))).

(** ** Layout dialog (table-rotation.js) *)

(** The rotation dialog: the dimension chips of each zone, if the zone is
    found. *)
Record overlay : Type := Overlay {
  rows_zone : option (list string);
  columns_zone : option (list string)
}.

(** What [applyRotation] reads and writes: [currentData],
    [AppState.tableLayout], the messages passed to [showError], whether the
    dialog is still in the document and how often [displayData] ran. *)
Record tableView : Type := TableView {
  currentData : option dataset;
  tableLayout : layout;
  view_errors : list string;
  dialog_open : bool;
  displayed : nat
}.

(** How a call ends: it returns with a state, or a [TypeError] escapes. *)
Inductive completion : Type :=
  | Returns (v : tableView)
  | ThrowsTypeError.

(** [arr.sort()] on strings: ascending. Only the equality of two sorted
    arrays is used, which does not depend on the total order chosen; the
    embedding sorts by bytes. *)
Fixpoint insert_string (x : string) (l : list string) : list string :=
  match l with
  | [] => [x]
  | y :: rest => if String.leb x y then x :: l else y :: insert_string x rest
  end.

Definition sort_strings (l : list string) : list string :=
  foldr insert_string [] l.

Definition view_showError (message : string) (v : tableView) : tableView :=
  TableView (currentData v) (tableLayout v) (view_errors v ++ [message])
            (dialog_open v) (displayed v).

Definition msg_all_dimensions : string :=
  "Alle dimensjoner må være enten i rader eller kolonner".

Definition msg_no_dimension : string :=
  "Tabellen må ha minst én dimensjon".

(** [JSON.stringify] is injective on arrays of strings, so the comparison of
    the two serialisations is the comparison of the two sorted arrays. *)
Definition applyRotation (v : tableView) (ov : overlay) : completion :=
  match rows_zone ov, columns_zone ov with
  | Some newRows, Some newCols =>
      match currentData v with
      | None => ThrowsTypeError
      | Some data =>
          let allDims := sort_strings (newRows ++ newCols) in
          let expectedDims := sort_strings (data_id data) in
          if negb (bool_decide (allDims = expectedDims)) then
            Returns (view_showError msg_all_dimensions v)
          else if bool_decide (newRows = []) && bool_decide (newCols = []) then
            Returns (view_showError msg_no_dimension v)
          else
            Returns (TableView (currentData v) (Layout newRows newCols)
                               (view_errors v) false (S (displayed v)))
      end
  | _, _ => Returns v
  end.

(** ** Example sessions *)

(** Sex with two categories in star mode and the year dimension with five
    in top mode, 2 typed into the top-n input. The year dimension has the
    code "Tid": [displayVariables] writes a top-n input only on the card of a
    time-like code. *)
Definition sexYear_md : metadata :=
  Metadata ["Sex"; "Tid"]
    (<["Sex" := Dimension (Category [("1", "Male"); ("2", "Female")]
                             (Some (<["1" := 0]> (<["2" := 1]> ∅)))) false []]>
     (<["Tid" := Dimension
          (Category [("2019", "2019"); ("2020", "2020"); ("2021", "2021");
                     ("2022", "2022"); ("2023", "2023")]
             (Some (<["2019" := 0]> (<["2020" := 1]> (<["2021" := 2]>
                    (<["2022" := 3]> (<["2023" := 4]> ∅))))))) false []]> ∅)).

Definition yearItems : list valueItem :=
  map (fun code => ValueItem code NoValuemap false)
      ["2019"; "2020"; "2021"; "2022"; "2023"].

Definition sexCard : card :=
  Card "Sex" false
       (Some (Container "star" [ValueItem "1" NoValuemap false; ValueItem "2" NoValuemap false]))
       None None.

(** The card of a time dimension lists the newest value first. *)
Definition yearCard : card :=
  Card "Tid" false (Some (Container "top" (rev yearItems))) (Some "2") None.

Definition sexYear : session :=
  Session (Some sexYear_md) ∅ ∅ ∅ [sexCard; yearCard] true [].


(** A mandatory time dimension in top mode with 0 typed into the top-n
    input. *)
Definition tidTop0 : session :=
  Session (Some (Metadata ["Tid"]
             (<["Tid" := Dimension
                  (Category [("2019", "2019"); ("2020", "2020"); ("2021", "2021");
                             ("2022", "2022"); ("2023", "2023")]
                     (Some (<["2019" := 0]> (<["2020" := 1]> (<["2021" := 2]>
                            (<["2022" := 3]> (<["2023" := 4]> ∅))))))) false []]> ∅)))
          ∅ ∅ ∅
          [Card "Tid" false (Some (Container "top" (rev yearItems))) (Some "0") None]
          true [].

(** A mandatory time dimension with the twenty years 2004 to 2023, its card
    in top mode with [input] as the text of the top-n input. *)
Definition twentyYears : list string :=
  ["2004"; "2005"; "2006"; "2007"; "2008"; "2009"; "2010"; "2011"; "2012"; "2013";
   "2014"; "2015"; "2016"; "2017"; "2018"; "2019"; "2020"; "2021"; "2022"; "2023"].

Definition twentyYearsContainer : container :=
  Container "top" (map (fun code => ValueItem code NoValuemap false) (rev twentyYears)).

Definition twentyYearsCard (input : string) : card :=
  Card "Tid" false (Some twentyYearsContainer) (Some input) None.

Definition tidTop (input : string) : session :=
  Session (Some (Metadata ["Tid"]
             (<["Tid" := Dimension
                  (Category (map (fun code => (code, code)) twentyYears)
                     (Some (list_to_map
                              (imap (fun i code => (code, Z.of_nat i)) twentyYears))))
                  false []]> ∅)))
          ∅ ∅ ∅ [twentyYearsCard input] true [].

(** The user has cleared the top-n input. *)
Definition tidCleared : session := tidTop "".

(** The number of values the specification counts for a dimension whose
    selection is TopN(n). *)
Definition spec_topN_count (n trueMaxCount : Z) : Z := Z.min n trueMaxCount.

(** An optional Region with nothing selected next to a mandatory
    ContentsCode with one value selected. *)
Definition regionCard : card :=
  Card "Region" true
       (Some (Container "specific"
                [ValueItem "0301" NoValuemap false; ValueItem "1103" NoValuemap false]))
       None None.

Definition contentsCard : card :=
  Card "ContentsCode" false
       (Some (Container "specific" [ValueItem "Personer" NoValuemap true]))
       None None.

Definition regionOmitted : session :=
  Session (Some (Metadata ["Region"; "ContentsCode"]
             (<["Region" := Dimension
                  (Category [("0301", "Oslo"); ("1103", "Stavanger")]
                     (Some (<["0301" := 0]> (<["1103" := 1]> ∅)))) true []]>
              (<["ContentsCode" := Dimension
                   (Category [("Personer", "Personer")]
                      (Some (<["Personer" := 0]> ∅))) false []]> ∅))))
          ∅ ∅ ∅ [regionCard; contentsCard] true [].

(** The years shown newest first, 2023, 2021 and 2019 selected. *)
Definition tidContainer : container :=
  Container "specific"
    [ValueItem "2023" NoValuemap true; ValueItem "2022" NoValuemap false;
     ValueItem "2021" NoValuemap true; ValueItem "2020" NoValuemap false;
     ValueItem "2019" NoValuemap true].

Definition tidCard : card := Card "Tid" false (Some tidContainer) (Some "12") None.

Definition tidIndex : gmap string Z :=
  <["2019" := 0]> (<["2020" := 1]> (<["2021" := 2]> (<["2022" := 3]> (<["2023" := 4]> ∅)))).

Definition tidNewestFirst : session :=
  Session (Some (Metadata ["Tid"]
             (<["Tid" := Dimension
                  (Category [("2019", "2019"); ("2020", "2020"); ("2021", "2021");
                             ("2022", "2022"); ("2023", "2023")]
                     (Some tidIndex)) false []]> ∅)))
          ∅ ∅ ∅ [tidCard] true [].

(** An aggregating codelist on Alder: two groups over four base codes, both
    groups selected. *)
Definition alderInfo : codelistInfo :=
  CodelistInfo "agg_Alder" false true
    [CodelistValue "G1" "0-39" ["00-19"; "20-39"];
     CodelistValue "G2" "20-66" ["20-39"; "40-66"]]
    ["00-19"; "20-39"; "40-66"].

Definition alderContainer : container :=
  Container "specific"
    [ValueItem "G1" (JsonArray ["00-19"; "20-39"]) true;
     ValueItem "G2" (JsonArray ["20-39"; "40-66"]) true].

Definition alderCard : card := Card "Alder" false (Some alderContainer) None None.

Definition alderGrouped : session :=
  Session (Some (Metadata ["Alder"]
             (<["Alder" := Dimension
                  (Category [("00-19", "0-19"); ("20-39", "20-39"); ("40-66", "40-66");
                             ("67+", "67+")]
                     (Some (<["00-19" := 0]> (<["20-39" := 1]> (<["40-66" := 2]>
                            (<["67+" := 3]> ∅)))))) false
                  [CodelistRef "agg_Alder" "Aldersgrupper"]]> ∅)))
          (<["Alder" := Some alderInfo]> ∅) ∅ (<["Alder" := "agg_Alder"]> ∅)
          [alderCard] true [].

(** Alder under a codelist that makes the mandatory dimension optional; the
    user has just picked another codelist in the dropdown. *)
Definition alderOptionalInfo : codelistInfo :=
  CodelistInfo "agg_Alder" true true
    [CodelistValue "G1" "0-39" ["00-19"; "20-39"];
     CodelistValue "G2" "40+" ["40-66"; "67+"]]
    ["00-19"; "20-39"; "40-66"; "67+"].

Definition alderOptionalCard : card :=
  Card "Alder" true
       (Some (Container "specific"
                [ValueItem "G1" (JsonArray ["00-19"; "20-39"]) true;
                 ValueItem "G2" (JsonArray ["40-66"; "67+"]) false]))
       None (Some (Dropdown "vs_Alder" false)).

Definition alderSwitching : session :=
  Session (Some (Metadata ["Alder"; "ContentsCode"]
             (<["Alder" := Dimension
                  (Category [("00-19", "0-19"); ("20-39", "20-39"); ("40-66", "40-66");
                             ("67+", "67+")]
                     (Some (<["00-19" := 0]> (<["20-39" := 1]> (<["40-66" := 2]>
                            (<["67+" := 3]> ∅)))))) false
                  [CodelistRef "vs_Alder" "Alder"; CodelistRef "agg_Alder" "Aldersgrupper"]]>
              (<["ContentsCode" := Dimension
                   (Category [("Personer", "Personer")]
                      (Some (<["Personer" := 0]> ∅))) false []]> ∅))))
          (<["Alder" := Some alderOptionalInfo]> ∅) ∅ (<["Alder" := "agg_Alder"]> ∅)
          [alderOptionalCard; contentsCard] true [].

(** ** The specification's reading of a non-empty query value *)

(** The rest of [s] after the prefix [p], if [s] starts with it. *)
Fixpoint strip_prefix (p s : string) : option string :=
  match p, s with
  | EmptyString, _ => Some s
  | String a p', String b s' => if decide (a = b) then strip_prefix p' s' else None
  | _, _ => None
  end.

(** A resolved value is non-empty, in the specification's words, when it is
    the wildcard, a top(n) with n >= 1, or a non-empty array. *)
Definition spec_nonEmpty (v : option qvalue) : bool :=
  match v with
  | Some (QCodes l) => negb (bool_decide (l = []))
  | Some (QString s) =>
      bool_decide (s = "*") ||
      match strip_prefix "top(" s with
      | Some rest =>
          match parseInt rest with
          | Num n => bool_decide (1 <= n)
          | NaN => false
          end
      | None => false
      end
  | None => false
  end.

(** ** The specification's reading of the time ordering *)





(** ** The specification's reading of layout validation *)

(** A proposal that partitions the dimensions of the cube is accepted: it
    becomes the layout and no error is shown. *)
Definition spec_layout_accepted (v : tableView) (data : dataset)
    (newRows newCols : list string) : Prop :=
  newRows ++ newCols ≡ₚ data_id data ->
  exists v', applyRotation v (Overlay (Some newRows) (Some newCols)) = Returns v'
             /\ tableLayout v' = Layout newRows newCols
             /\ view_errors v' = view_errors v.

(** A cube of two dimensions shown with Kjonn in the rows, and a cube
    without dimensions (a single cell). *)
Definition kjonnTid : dataset :=
  Dataset ["Kjonn"; "Tid"] [2; 2] [JNumber 10; JNumber 20; JNumber 30; JNumber 40].

Definition kjonnTidView : tableView :=
  TableView (Some kjonnTid) (Layout ["Kjonn"] ["Tid"]) [] true 1.

Definition singleCell : dataset := Dataset [] [] [JNumber 7].

Definition singleCellView : tableView :=
  TableView (Some singleCell) (Layout [] []) [] true 1.

(** ** Header combinations and default layout (table-display.js,
       variable-select-state.js) *)

(** The inner loops of [buildDimensionCombinations] for one dimension, whose
    [category.index] is given by its entries in the order of [Object.keys]:
    every combination is extended by every category. *)
Definition extendCombinations (cat : list (string * Z)) (combinations : list header)
    : list header :=
  flat_map (fun combo =>
              map (fun '(code, index) =>
                     Header (codes combo ++ [code]) (indices combo ++ [index]))
                  cat)
           combinations.

(** [buildDimensionCombinations(dimCodes, data)], [dims] being
    [data.dimension] reduced to the [category.index] of each dimension. A
    code without a dimension makes [dimension.category] throw: [None]. *)
Definition buildDimensionCombinations (dimCodes : list string)
    (dims : gmap string (list (string * Z))) : option (list header) :=
  foldl (fun acc dimCode =>
           combinations ← acc;
           cat ← dims !! dimCode;
           Some (extendCombinations cat combinations))
        (Some [Header [] []]) dimCodes.

(** The combinations over given categories, the first dimension slowest. *)
Definition combinationsOf (cats : list (list (string * Z))) (start : list header)
    : list header :=
  foldl (fun acc cat => extendCombinations cat acc) start cats.

(** The category indices are the positions 0, 1, ... in key order. *)
Definition canonical (cat : list (string * Z)) : Prop :=
  map snd cat = map Z.of_nat (seq 0 (length cat)).

(** [arr.findIndex(p)]: [None] stands for -1. *)
Fixpoint findIndex {A : Type} (p : A -> bool) (arr : list A) : option nat :=
  match arr with
  | [] => None
  | x :: rest => if p x then Some 0%nat else S <$> findIndex p rest
  end.

(** [arr.filter((_, i) => p(i))]. *)
Fixpoint filter_index {A : Type} (p : nat -> bool) (i : nat) (arr : list A) : list A :=
  match arr with
  | [] => []
  | x :: rest => if p i then x :: filter_index p (S i) rest else filter_index p (S i) rest
  end.

(** [determineDefaultLayout(data)] of variable-select-state.js: the time
    dimension, if there is one, alone in the rows; otherwise the last
    dimension in the columns. *)
Definition determineDefaultLayout (dimensions : list string) : layout :=
  match findIndex isTimeDim dimensions with
  | Some timeDimIndex =>
      let nonTimeDims :=
        filter_index (fun i => negb (i =? timeDimIndex)%nat) 0 dimensions in
      match dimensions !! timeDimIndex with
      | Some timeDim => Layout [timeDim] nonTimeDims
      | None => Layout [] nonTimeDims
      end
  | None =>
      if (1 <? length dimensions)%nat then
        Layout (take (length dimensions - 1) dimensions)
               (drop (length dimensions - 1) dimensions)
      else Layout [] dimensions
  end.

(** The two dimensions of the cube [kjonnTid] with their categories. *)
Definition kjonnTidDims : gmap string (list (string * Z)) :=
  <["Kjonn" := [("1", 0); ("2", 1)]]> (<["Tid" := [("2022", 0); ("2023", 1)]]> ∅).

(** ** Layout presets (table-rotation.js) *)

(** The chips [renderDimensionList] writes into a zone: one per code, none
    without data. The cube has a dimension for every code it is asked to
    render. *)
Definition renderDimensionList (currentData : option dataset) (dimCodes : list string)
    : list string :=
  match currentData with
  | Some _ => dimCodes
  | None => []
  end.

(** [applyPreset(preset, dimensions, overlay)]: the zones of the dialog after
    the preset. The default case repeats the statements of
    [determineDefaultLayout]; an unknown preset leaves both lists empty. *)
Definition applyPreset (currentData : option dataset) (preset : string)
    (dimensions : list string) (ov : overlay) : overlay :=
  match rows_zone ov, columns_zone ov with
  | Some currentRows, Some currentCols =>
      let '(newRows, newCols) :=
        if decide (preset = "default") then
          (rows (determineDefaultLayout dimensions),
           columns (determineDefaultLayout dimensions))
        else if decide (preset = "transpose") then (currentCols, currentRows)
        else if decide (preset = "all-rows") then (dimensions, [])
        else if decide (preset = "all-cols") then ([], dimensions)
        else ([], []) in
      Overlay (Some (renderDimensionList currentData newRows))
              (Some (renderDimensionList currentData newCols))
  | _, _ => ov
  end.

(** ** Codelist options (variable-select-codelists.js) *)

(** [cl.id.toLowerCase().startsWith(p)]. *)
Definition idStartsWith (p : string) (cl : codelistRef) : bool :=
  String.prefix p (toLowerCase (ref_id cl)).

(** [sortCodelistOptions(codelists)]: value sets first, aggregations last. *)
Definition sortCodelistOptions (codelists : list codelistRef) : list codelistRef :=
  let vs := List.filter (idStartsWith "vs_") codelists in
  let agg := List.filter (idStartsWith "agg_") codelists in
  let other :=
    List.filter (fun cl => negb (idStartsWith "vs_" cl) && negb (idStartsWith "agg_" cl))
                codelists in
  vs ++ other ++ agg.

(** What [extractCodelistCodes] guarantees about its result, whatever the
    resource: the codes are a set, they are the non-empty codes of the value
    maps, every entry has a code and a non-empty value map, and the
    aggregation flag is off exactly for self-mapped entries. *)
Definition wellFormedExtract (ex : extracted) : Prop :=
  NoDup (ex_originalCodes ex)
  /\ (forall c, c ∈ ex_originalCodes ex <->
        c <> "" /\ exists v, v ∈ ex_values ex /\ c ∈ cv_valueMap v)
  /\ Forall (fun v => cv_code v <> "" /\ cv_valueMap v <> []) (ex_values ex)
  /\ (ex_isAggregated ex = false <->
      Forall (fun v => cv_valueMap v = [cv_code v]) (ex_values ex)).

(** A resource with a filter entry, an aggregating entry, an entry without
    code and a repeated base code. *)
Definition mixedCodelist : codelistData :=
  CodelistData (Some "agg_Alder") true
    (Some [RawCodelistItem (Some "00-19") (Some "0-19 aar") None;
           RawCodelistItem (Some "G2") None (Some ["20-39"; "40-66"; "00-19"]);
           RawCodelistItem None (Some "uten kode") (Some ["67+"])]).

(** Kjonn with a pre-loaded order that names an unknown code and puts "2"
    first. *)
Definition kjonnPreferred : session :=
  Session (Some (Metadata ["Kjonn"]
             (<["Kjonn" := Dimension
                  (Category [("0", "Begge"); ("1", "Menn"); ("2", "Kvinner")]
                     (Some (<["0" := 0]> (<["1" := 1]> (<["2" := 2]> ∅)))))
                  false [CodelistRef "vs_Kjonn" "Kjonn"]]> ∅)))
          ∅ (<["Kjonn" := ["2"; "9"; "1"; "2"]]> ∅) ∅ [] true [].

(** ** Selecting values (variable-select-events.js) *)

(** The modifier keys of a click: [e.shiftKey] and [e.ctrlKey || e.metaKey]. *)
Record clickEvent : Type := ClickEvent {
  shiftKey : bool;
  ctrlOrMeta : bool
}.

(** [classList.add / remove / toggle ('selected')]. *)
Definition setSelected (b : bool) (it : valueItem) : valueItem :=
  ValueItem (data_code it) (data_valuemap it) b.

Definition toggleSelected (it : valueItem) : valueItem :=
  setSelected (negb (selected it)) it.

(** The items after a click on the item at position [clicked]. Both
    renderers number the items by position, so [data-index] is the position.
    [last] is [lastClickedIndex[dimCode]]. *)
Definition clickItems (its : list valueItem) (last : option nat) (clicked : nat)
    (e : clickEvent) : list valueItem :=
  match last with
  | Some lastIndex =>
      if shiftKey e then
        let start := Nat.min lastIndex clicked in
        let stop := Nat.max lastIndex clicked in
        let base := if ctrlOrMeta e then its else map (setSelected false) its in
        imap (fun idx it =>
                if (start <=? idx)%nat && (idx <=? stop)%nat
                then setSelected true it else it) base
      else if ctrlOrMeta e then alter toggleSelected clicked its
      else alter (setSelected true) clicked (map (setSelected false) its)
  | None =>
      if ctrlOrMeta e then alter toggleSelected clicked its
      else alter (setSelected true) clicked (map (setSelected false) its)
  end.

(** The click handler of a value list: the container and the remembered
    index after a click on the item at position [clicked]. A click that hits
    no item does nothing. *)
Definition clickItem (cont : container) (last : option nat) (clicked : nat)
    (e : clickEvent) : container * option nat :=
  if (clicked <? length (items cont))%nat then
    (Container "specific" (clickItems (items cont) last clicked e), Some clicked)
  else (cont, last).

(** A short value list with its first item selected. *)
Definition threeItems : list valueItem :=
  [ValueItem "a" NoValuemap true; ValueItem "b" NoValuemap false;
   ValueItem "c" NoValuemap false].

(** ** Automatic and restored selections (variable-select-render.js, in
       table-rotation.js) *)

(** The body of the [forEach] of [autoSelectSingleValueDimensions]: a
    mandatory card whose list has exactly one item gets it selected, in
    specific mode. *)
Definition autoSelectCard (c : card) : card :=
  match value_list_container c with
  | Some cont =>
      if data_elimination c then c
      else
        match items cont with
        | [singleItem] =>
            Card (data_dimension c) (data_elimination c)
                 (Some (Container "specific" [setSelected true singleItem]))
                 (top_n_input c) (codelist_dropdown c)
        | _ => c
        end
  | None => c
  end.

Definition autoSelectSingleValueDimensions (st : session) : session :=
  with_cards st (map autoSelectCard (cards st)).

(** [\d]. *)
Definition isDigit (ch : ascii) : bool :=
  match digit_of ch with
  | Some _ => true
  | None => false
  end.

(** The digits a string starts with. *)
Fixpoint takeDigits (s : string) : string :=
  match s with
  | String ch rest => if isDigit ch then String ch (takeDigits rest) else EmptyString
  | EmptyString => EmptyString
  end.

(** [s.match(/\d+/)?.[0]]: the first run of digits. *)
Fixpoint firstDigits (s : string) : option string :=
  match s with
  | String ch rest =>
      if isDigit ch then Some (String ch (takeDigits rest)) else firstDigits rest
  | EmptyString => None
  end.

(** The body of the second [forEach] of [restoreSelections]: what a saved
    value does to the card of its dimension. "*" sets star mode; a string
    that starts with "top(" sets top mode and writes its first run of digits
    (or 12) into the top-n input, if the card has one; a non-empty array
    selects the items whose code it holds. *)
Definition restoreCard (savedSelection : gmap string qvalue) (c : card) : card :=
  match value_list_container c with
  | None => c
  | Some cont =>
      match savedSelection !! data_dimension c with
      | None => c
      | Some (QString s) =>
          if decide (s = "") then c
          else if decide (s = "*") then
            Card (data_dimension c) (data_elimination c)
                 (Some (Container "star" (items cont)))
                 (top_n_input c) (codelist_dropdown c)
          else if String.prefix "top(" s then
            let n := default "12" (firstDigits s) in
            Card (data_dimension c) (data_elimination c)
                 (Some (Container "top" (items cont)))
                 ((fun _ => n) <$> top_n_input c) (codelist_dropdown c)
          else c
      | Some (QCodes dimSelection) =>
          if bool_decide (dimSelection = []) then c
          else
            Card (data_dimension c) (data_elimination c)
                 (Some (Container (data_mode cont)
                          (map (fun item =>
                                  if bool_decide (data_code item ∈ dimSelection)
                                  then setSelected true item else item)
                               (items cont))))
                 (top_n_input c) (codelist_dropdown c)
      end
  end.

(** The second pass of [restoreSelections]; it does nothing without a saved
    selection. *)
Definition restoreValueSelections (savedSelection : gmap string qvalue) (st : session)
    : session :=
  with_cards st (map (restoreCard savedSelection) (cards st)).

(** The variable cards as [displayVariables] writes them: specific mode,
    nothing selected. *)
Definition freshCards (st : session) : session :=
  with_cards st (map resetSelection (cards st)).

(** Every character of the string is a digit. *)
Fixpoint allDigits (s : string) : bool :=
  match s with
  | String ch rest => isDigit ch && allDigits rest
  | EmptyString => true
  end.


(** [getDimensionDisplayOrder]: the heading dimensions, the stub dimensions,
    then every dimension of [metadata.id] that neither lists.  [heading] and
    [stub] are [extension?.px?.heading] and [extension?.px?.stub]; [None] is
    a missing property, replaced by the empty array. *)
Definition getDimensionDisplayOrder (heading stub : option (list string))
    (id : list string) : list string :=
  let ordered := default [] heading ++ default [] stub in
  let remaining := filter (fun d => d ∉ ordered) id in
  ordered ++ remaining.

(** [String.prototype.replace] with a global one-character pattern. *)
Fixpoint replaceAll (c : ascii) (r : string) (s : string) : string :=
  match s with
  | EmptyString => EmptyString
  | String a s' =>
      if Ascii.eqb a c then (r ++ replaceAll c r s')%string
      else String a (replaceAll c r s')
  end.

(** [escapeHtml]; [None] is [null] or [undefined].  The double quote is
    character 34. *)
Definition escapeHtml (text : option string) : string :=
  match text with
  | None => ""
  | Some s =>
      replaceAll "'" "&#39;"
        (replaceAll "034" "&quot;"
          (replaceAll ">" "&gt;"
            (replaceAll "<" "&lt;"
              (replaceAll "&" "&amp;" s))))
  end.

(** The entity one character is escaped to. *)
Definition escapeChar (a : ascii) : string := escapeHtml (Some (String a "")).

Definition markup : list ascii := ["<"; ">"; "034"; "'"]%char.
(** * Properties *)

(** ** Cube addressing *)

Lemma spec_strides_length (sizes : list Z) :
  length (spec_strides sizes) = length sizes.
Proof. induction sizes as [|s rest IH]; simpl; congruence. Qed.

(** Adding a fastest-changing dimension scales every stride by its size. *)
Lemma spec_strides_snoc (sizes : list Z) (s : Z) :
  spec_strides (sizes ++ [s]) = map (fun t => t * s) (spec_strides sizes) ++ [1].
Proof.
  induction sizes as [|s0 rest IH]; [reflexivity|].
  change (spec_strides ((s0 :: rest) ++ [s]))
    with (match spec_strides (rest ++ [s]), (rest ++ [s])%list with
          | stride :: _, size :: _ => stride * size
          | _, _ => 1
          end :: spec_strides (rest ++ [s])).
  rewrite IH. destruct rest as [|s1 rest']; simpl; [reflexivity|].
  f_equal. lia.
Qed.

Lemma spec_offset_snoc (idx strides : list Z) (x s : Z) :
  length idx = length strides ->
  spec_offset (idx ++ [x]) (map (fun t => t * s) strides ++ [1]) =
  x + s * spec_offset idx strides.
Proof.
  revert strides. induction idx as [|i idx IH]; intros [|t strides] Hlen;
    simpl in *; try discriminate; [lia|].
  rewrite IH by congruence. lia.
Qed.

(** The loop, started after [n] dimensions remain, adds the offset of the
    first [n] dimensions scaled by the multiplier reached so far. *)
Lemma flat_loop_offset (idx sizes : list Z) (n : nat) (a m : Z) :
  length idx = length sizes -> (n <= length sizes)%nat ->
  flat_loop (Some <$> idx) sizes n (Num a) (Num m) =
  Num (a + m * spec_offset (take n idx) (spec_strides (take n sizes))).
Proof.
  intros Hlen. revert a m. induction n as [|i IH]; intros a m Hn.
  - simpl. f_equal. lia.
  - destruct (lookup_lt_is_Some_2 idx i) as [x Hx]; [lia|].
    destruct (lookup_lt_is_Some_2 sizes i) as [s Hs]; [lia|].
    simpl. unfold index_at, num_at.
    rewrite list_lookup_fmap, Hx, Hs. simpl.
    rewrite IH by lia.
    rewrite (take_S_r idx i x Hx), (take_S_r sizes i s Hs).
    rewrite spec_strides_snoc, spec_offset_snoc.
    + f_equal. lia.
    + rewrite spec_strides_length, !length_take. lia.
Qed.

Lemma calculateFlatIndex_offset (idx sizes : list Z) :
  length idx = length sizes ->
  calculateFlatIndex (Some <$> idx) sizes = Num (spec_offset idx (spec_strides sizes)).
Proof.
  intros Hlen. unfold calculateFlatIndex.
  rewrite flat_loop_offset by lia.
  rewrite <- Hlen at 1. rewrite !firstn_all. f_equal. lia.
Qed.

Lemma spec_strides_cons (s : Z) (sizes : list Z) :
  spec_strides (s :: sizes) = cells sizes :: spec_strides sizes.
Proof.
  revert s. induction sizes as [|s1 rest IH]; intros s; [reflexivity|].
  change (spec_strides (s :: s1 :: rest))
    with (match spec_strides (s1 :: rest) with
          | stride :: _ => stride * s1
          | [] => 1
          end :: spec_strides (s1 :: rest)).
  rewrite (IH s1). f_equal. simpl. lia.
Qed.

Lemma spec_offset_range (idx sizes : list Z) :
  in_range idx sizes ->
  0 <= spec_offset idx (spec_strides sizes) < cells sizes.
Proof.
  induction 1 as [|i s idx sizes Hi _ IH]; [simpl; lia|].
  rewrite spec_strides_cons. simpl. nia.
Qed.

Lemma spec_offset_injective (idx idx' sizes : list Z) :
  in_range idx sizes -> in_range idx' sizes ->
  spec_offset idx (spec_strides sizes) = spec_offset idx' (spec_strides sizes) ->
  idx = idx'.
Proof.
  intros H. revert idx'. induction H as [|i s idx sizes Hi Hr IH]; intros idx' H' Heq.
  - by inversion H'.
  - inversion H' as [|i' s' idx1 sizes' Hi' Hr' ]; subst.
    rewrite spec_strides_cons in Heq. simpl in Heq.
    pose proof (spec_offset_range _ _ Hr). pose proof (spec_offset_range _ _ Hr').
    assert (i = i') by nia. subst i'.
    f_equal. apply IH; [done|lia].
Qed.

(** On index vectors within the sizes [calculateFlatIndex] lands in the value
    array and never maps two vectors to one offset. *)
Lemma calculateFlatIndex_range (idx sizes : list Z) :
  in_range idx sizes ->
  exists k, calculateFlatIndex (Some <$> idx) sizes = Num k /\ 0 <= k < cells sizes.
Proof.
  intros Hr. exists (spec_offset idx (spec_strides sizes)). split.
  - apply calculateFlatIndex_offset. by eapply Forall2_length.
  - by apply spec_offset_range.
Qed.

Lemma calculateFlatIndex_injective (idx idx' sizes : list Z) :
  in_range idx sizes -> in_range idx' sizes ->
  calculateFlatIndex (Some <$> idx) sizes = calculateFlatIndex (Some <$> idx') sizes ->
  idx = idx'.
Proof.
  intros Hr Hr'.
  rewrite !calculateFlatIndex_offset by by eapply Forall2_length.
  intros [= Heq]. by eapply spec_offset_injective.
Qed.

Lemma indexOf_None (x : string) (arr : list string) :
  x ∉ arr -> indexOf x arr = None.
Proof.
  induction arr as [|y rest IH]; intros Hx; [reflexivity|].
  simpl. apply not_elem_of_cons in Hx as [Hne Hx].
  destruct (decide (y = x)); [congruence|]. by rewrite IH.
Qed.

Lemma indexOf_Some (x : string) (arr : list string) (k : nat) :
  indexOf x arr = Some k -> (k < length arr)%nat.
Proof.
  revert k. induction arr as [|y rest IH]; intros k; simpl; [discriminate|].
  destruct (decide (y = x)); [intros [= <-]; lia|].
  destruct (indexOf x rest) as [j|]; simpl; [|discriminate].
  intros [= <-]. specialize (IH j eq_refl). lia.
Qed.

(** With headers as long as their layout lists, every pushed index is a
    number. *)
Lemma fullIndexOf_defined (lay : layout) (rowHeader colHeader : header) (d : string) :
  length (indices rowHeader) = length (rows lay) ->
  length (indices colHeader) = length (columns lay) ->
  is_Some (fullIndexOf lay rowHeader colHeader d).
Proof.
  intros Hr Hc. unfold fullIndexOf.
  destruct (indexOf d (rows lay)) as [i|] eqn:Ei.
  - apply lookup_lt_is_Some_2. apply indexOf_Some in Ei. lia.
  - destruct (indexOf d (columns lay)) as [j|] eqn:Ej; [|by eexists].
    apply lookup_lt_is_Some_2. apply indexOf_Some in Ej. lia.
Qed.

(** The loop yields a number as soon as the first [n] indices are numbers. *)
Lemma flat_loop_number (full : list (option Z)) (sizes : list Z) (n : nat) (a m : Z) :
  (n <= length sizes)%nat ->
  (forall i, (i < n)%nat -> exists z, full !! i = Some (Some z)) ->
  exists z, flat_loop full sizes n (Num a) (Num m) = Num z.
Proof.
  revert a m. induction n as [|i IH]; intros a m Hn Hfull; simpl; [by eexists|].
  destruct (Hfull i) as [x Hx]; [lia|].
  destruct (lookup_lt_is_Some_2 sizes i) as [s Hs]; [lia|].
  unfold index_at, num_at. rewrite Hx, Hs. simpl.
  apply IH; [lia|]. intros j Hj. apply Hfull. lia.
Qed.

Lemma spec_offset_zeros (n : nat) (strides : list Z) :
  spec_offset (replicate n 0) strides = 0.
Proof.
  revert strides. induction n as [|n IH]; intros [|s l]; simpl; try lia.
  rewrite IH. lia.
Qed.

(** C1: [calculateFlatIndex] computes the offset with right-to-left strides
    (the last stride is 1, each earlier stride is the next stride times the
    next size; the offset is the sum of index times stride), and in the
    scenario D = [Sex, Year], sizes [2, 2], V = [10, 20, 30, 40], rows =
    [Sex], columns = [Year], the value at Sex index 1 and Year index 1 is
    V[1*2+1] = V[3] = 40. *)
Theorem cube_addressing_strides (idx sizes : list Z) :
  length idx = length sizes ->
  calculateFlatIndex (Some <$> idx) sizes = Num (spec_offset idx (spec_strides sizes))
  /\ (forall i, (S i = length sizes)%nat -> spec_strides sizes !! i = Some 1)
  /\ (forall i stride size,
        spec_strides sizes !! S i = Some stride -> sizes !! S i = Some size ->
        spec_strides sizes !! i = Some (stride * size))
  /\ calculateFlatIndex [Some 1; Some 1] [2; 2] = Num (1 * 2 + 1)
  /\ getDataValue
       (Some (Dataset ["Sex"; "Year"] [2; 2] [JNumber 10; JNumber 20; JNumber 30; JNumber 40]))
       (Layout ["Sex"] ["Year"]) (Header ["1"] [1]) (Header ["1"] [1])
     = JNumber 40.
Proof.
  intros Hlen. split; [by apply calculateFlatIndex_offset|].
  split; [|split; [|split; reflexivity]].
  - clear. induction sizes as [|s rest IH]; intros i Hi; [discriminate|].
    rewrite spec_strides_cons. destruct i as [|i].
    + destruct rest; [reflexivity|discriminate].
    + simpl. apply IH. simpl in Hi. lia.
  - clear. induction sizes as [|s rest IH]; intros i stride size Hst Hsz; [discriminate|].
    destruct i as [|i].
    + rewrite spec_strides_cons in *. simpl in *.
      destruct rest as [|s1 rest']; [discriminate|].
      rewrite spec_strides_cons in Hst. simpl in *.
      injection Hst as <-. injection Hsz as <-. f_equal. lia.
    + rewrite spec_strides_cons in *. simpl in *. by apply IH.
Qed.

Lemma cube_addressing_strides_witness :
  calculateFlatIndex (Some <$> [1; 0; 2]) [2; 3; 4]
  = Num (spec_offset [1; 0; 2] (spec_strides [2; 3; 4])).
Proof. apply (cube_addressing_strides [1; 0; 2] [2; 3; 4]). reflexivity. Defined.

(** C2: for sizes [2, 3] the six index vectors (i, j), 0 <= i < 2,
    0 <= j < 3, are mapped by [calculateFlatIndex] to pairwise distinct
    offsets that cover exactly 0..5. *)
Theorem flat_index_bijective_2x3 :
  (forall i j, 0 <= i < 2 -> 0 <= j < 3 ->
     exists k, calculateFlatIndex [Some i; Some j] [2; 3] = Num k /\ 0 <= k < 6)
  /\ (forall i j i' j', 0 <= i < 2 -> 0 <= j < 3 -> 0 <= i' < 2 -> 0 <= j' < 3 ->
        calculateFlatIndex [Some i; Some j] [2; 3]
        = calculateFlatIndex [Some i'; Some j'] [2; 3] ->
        i = i' /\ j = j')
  /\ (forall k, 0 <= k < 6 ->
        exists i j, 0 <= i < 2 /\ 0 <= j < 3 /\
                    calculateFlatIndex [Some i; Some j] [2; 3] = Num k)
  /\ map (fun '(i, j) => calculateFlatIndex [Some i; Some j] [2; 3])
         [(0, 0); (0, 1); (0, 2); (1, 0); (1, 1); (1, 2)]
     = [Num 0; Num 1; Num 2; Num 3; Num 4; Num 5].
Proof.
  assert (Hrange : forall i j, 0 <= i < 2 -> 0 <= j < 3 -> in_range [i; j] [2; 3]).
  { intros i j Hi Hj. repeat constructor; lia. }
  split; [|split; [|split; [|reflexivity]]].
  - intros i j Hi Hj.
    apply (calculateFlatIndex_range [i; j] [2; 3]). by apply Hrange.
  - intros i j i' j' Hi Hj Hi' Hj' Heq.
    assert ([i; j] = [i'; j']) as [= -> ->]; [|done].
    apply (calculateFlatIndex_injective [i; j] [i'; j'] [2; 3]); auto.
  - intros k Hk. exists (k / 3), (k mod 3).
    pose proof (Z.div_mod k 3 ltac:(lia)) as Hdm.
    pose proof (Z.mod_pos_bound k 3 ltac:(lia)).
    assert (0 <= k / 3 < 2)
      by (split; [apply Z.div_pos; lia | apply Z.div_lt_upper_bound; lia]).
    repeat split; try lia.
    change [Some (k / 3); Some (k mod 3)] with (Some <$> [k / 3; k mod 3]).
    rewrite calculateFlatIndex_offset by reflexivity. simpl. f_equal. lia.
Qed.

Lemma flat_index_bijective_2x3_witness :
  exists k, calculateFlatIndex [Some 1; Some 2] [2; 3] = Num k /\ 0 <= k < 6.
Proof. apply (proj1 flat_index_bijective_2x3 1 2); lia. Defined.

(** C10: [getDataValue] is total over any layout. A dimension of the cube
    that is in neither [rows] nor [columns] contributes index 0; the index
    vector always has one entry per dimension, and with headers as long as
    their layout lists the flat offset is a number, so a value of the array
    (or [undefined]) is returned and nothing throws; without data the result
    is [null]. *)
Theorem getDataValue_missing_dimension_zero
    (lay : layout) (data : dataset) (rowHeader colHeader : header) :
  length (fullIndices lay data rowHeader colHeader) = length (data_id data)
  /\ (forall i d, data_id data !! i = Some d -> d ∉ rows lay -> d ∉ columns lay ->
        fullIndices lay data rowHeader colHeader !! i = Some (Some 0))
  /\ (length (indices rowHeader) = length (rows lay) ->
      length (indices colHeader) = length (columns lay) ->
      length (data_size data) = length (data_id data) ->
      exists z,
        calculateFlatIndex (fullIndices lay data rowHeader colHeader) (data_size data) = Num z
        /\ getDataValue (Some data) lay rowHeader colHeader = array_get (data_value data) (Num z))
  /\ ((forall d, d ∈ data_id data -> (d ∉ rows lay) /\ (d ∉ columns lay)) ->
      length (data_size data) = length (data_id data) ->
      getDataValue (Some data) lay rowHeader colHeader = array_get (data_value data) (Num 0))
  /\ getDataValue None lay rowHeader colHeader = JNull.
Proof.
  split; [apply length_map|]. split; [|split; [|split; [|reflexivity]]].
  - intros i d Hd Hr Hc. unfold fullIndices.
    rewrite list_lookup_fmap, Hd. simpl. unfold fullIndexOf.
    by rewrite !indexOf_None.
  - intros Hr Hc Hsz.
    destruct (flat_loop_number (fullIndices lay data rowHeader colHeader)
                (data_size data) (length (data_size data)) 0 1) as [z Hz]; [lia| |].
    + intros i Hi. unfold fullIndices. rewrite list_lookup_fmap.
      destruct (lookup_lt_is_Some_2 (data_id data) i) as [d Hd]; [lia|].
      rewrite Hd. simpl.
      destruct (fullIndexOf_defined lay rowHeader colHeader d Hr Hc) as [x ->].
      by eexists.
    + exists z. split; [exact Hz|]. unfold getDataValue. simpl.
      unfold calculateFlatIndex in *. by rewrite Hz.
  - intros Hnone Hsz. unfold getDataValue. simpl.
    replace (fullIndices lay data rowHeader colHeader)
      with (Some <$> replicate (length (data_id data)) 0).
    + rewrite calculateFlatIndex_offset by (rewrite length_replicate; lia).
      by rewrite spec_offset_zeros.
    + unfold fullIndices. clear Hsz.
      induction (data_id data) as [|d ds IH]; [reflexivity|]. simpl. f_equal.
      * unfold fullIndexOf. destruct (Hnone d) as [Hr Hc]; [left|].
        by rewrite !indexOf_None.
      * apply IH. intros d' Hd'. apply Hnone. by right.
Qed.

Lemma getDataValue_missing_dimension_zero_witness :
  fullIndices (Layout ["Kjonn"] []) (Dataset ["Kjonn"; "Tid"] [2; 2] [JNumber 1; JNumber 2; JNumber 3; JNumber 4])
              (Header ["1"] [1]) (Header [] []) !! 1%nat = Some (Some 0).
Proof.
  apply (proj1 (proj2 (getDataValue_missing_dimension_zero
           (Layout ["Kjonn"] []) (Dataset ["Kjonn"; "Tid"] [2; 2] [JNumber 1; JNumber 2; JNumber 3; JNumber 4])
           (Header ["1"] [1]) (Header [] []))) 1%nat "Tid").
  - reflexivity.
  - simpl. intros H. by apply list_elem_of_singleton in H.
  - simpl. apply not_elem_of_nil.
Defined.

(** ** Sets and sorting *)

Lemma set_add_elem (x y : string) (s : list string) :
  y ∈ set_add x s <-> y = x \/ y ∈ s.
Proof.
  unfold set_add. destruct (decide (x ∈ s)) as [Hin|Hin].
  - split; [by right|]. intros [->|]; done.
  - rewrite elem_of_app, list_elem_of_singleton. tauto.
Qed.

Lemma set_add_NoDup (x : string) (s : list string) :
  NoDup s -> NoDup (set_add x s).
Proof.
  intros Hs. unfold set_add. destruct (decide (x ∈ s)) as [Hin|Hin]; [done|].
  apply NoDup_app. split; [done|]. split.
  - intros y Hy ->%list_elem_of_singleton. done.
  - apply NoDup_singleton.
Qed.

Lemma set_add_all_elem (vm acc : list string) (y : string) :
  y ∈ foldl (fun s code => set_add code s) acc vm <-> y ∈ acc \/ y ∈ vm.
Proof.
  revert acc. induction vm as [|c vm IH]; intros acc; simpl.
  - rewrite elem_of_nil. tauto.
  - rewrite IH, set_add_elem, elem_of_cons. tauto.
Qed.

Lemma set_add_all_NoDup (vm acc : list string) :
  NoDup acc -> NoDup (foldl (fun s code => set_add code s) acc vm).
Proof.
  revert acc. induction vm as [|c vm IH]; intros acc Hacc; simpl; [done|].
  apply IH. by apply set_add_NoDup.
Qed.

Lemma expand_elem (sel : list valueItem) (acc : list string) (y : string) :
  y ∈ foldl expandStep acc sel <->
  y ∈ acc \/ exists item valueMap,
               item ∈ sel /\ data_valuemap item = JsonArray valueMap /\ y ∈ valueMap.
Proof.
  revert acc. induction sel as [|it sel IH]; intros acc; simpl.
  - split; [by left|]. intros [|(item & vm & Hin & _)]; [done|]. by apply elem_of_nil in Hin.
  - rewrite IH. unfold expandStep. split.
    + intros [Hy|(item & vm & Hin & Hvm & Hy)].
      * destruct (data_valuemap it) as [| |vm|] eqn:Evm; try by left.
        apply set_add_all_elem in Hy as [Hy|Hy]; [by left|].
        right. exists it, vm. split; [left|done].
      * right. exists item, vm. split; [by right|done].
    + intros [Hy|(item & vm & Hin & Hvm & Hy)].
      * left. destruct (data_valuemap it); try done. apply set_add_all_elem. by left.
      * apply elem_of_cons in Hin as [->|Hin].
        -- left. rewrite Hvm. apply set_add_all_elem. by right.
        -- right. by exists item, vm.
Qed.

Lemma expand_NoDup (sel : list valueItem) (acc : list string) :
  NoDup acc -> NoDup (foldl expandStep acc sel).
Proof.
  revert acc. induction sel as [|it sel IH]; intros acc Hacc; simpl; [done|].
  apply IH. unfold expandStep. destruct (data_valuemap it); try done.
  by apply set_add_all_NoDup.
Qed.

(** Under a filter codelist (every item maps to its own code) the expansion
    of items with distinct codes is the list of their codes. *)
Lemma expand_filter (sel : list valueItem) (acc : list string) :
  (forall item, item ∈ sel -> data_valuemap item = JsonArray [data_code item]) ->
  NoDup (acc ++ map data_code sel) ->
  foldl expandStep acc sel = acc ++ map data_code sel.
Proof.
  revert acc. induction sel as [|it sel IH]; intros acc Hvm Hnd; simpl.
  - by rewrite app_nil_r.
  - unfold expandStep at 2. rewrite (Hvm it) by left. simpl.
    assert (Hit : data_code it ∉ acc).
    { apply NoDup_app in Hnd as (_ & Hdisj & _). intros Hin.
      apply (Hdisj _ Hin). left. }
    unfold set_add. destruct (decide (data_code it ∈ acc)); [done|].
    rewrite IH.
    + by rewrite <- app_assoc.
    + intros item Hin. apply Hvm. by right.
    + by rewrite <- app_assoc.
Qed.

(** The comparator sort of the time ordering, for any key. *)
Section sort_by.
Variable key : string -> Z.

Lemma insert_by_Permutation (x : string) (l : list string) :
  insert_by key x l ≡ₚ x :: l.
Proof.
  induction l as [|y rest IH]; simpl; [done|].
  destruct (Z.leb (key x) (key y)); [done|].
  rewrite IH. apply Permutation_swap.
Qed.

Lemma sort_by_Permutation (l : list string) :
  sort_by key l ≡ₚ l.
Proof.
  induction l as [|x rest IH]; simpl; [done|].
  by rewrite insert_by_Permutation, IH.
Qed.





End sort_by.

(** ** The query object *)

Lemma selection_fold_None (st : session) (cs : list card) (m : gmap string qvalue)
    (d : string) :
  foldl (selectionStep st) m cs !! d = None <->
  m !! d = None /\
  forall c, c ∈ cs -> data_dimension c = d -> cardSelection st c = None.
Proof.
  revert m. induction cs as [|c cs IH]; intros m; simpl.
  - split; [|tauto]. intros Hm. split; [done|]. intros c Hc. by apply elem_of_nil in Hc.
  - rewrite IH. unfold selectionStep. split.
    + intros [Hm Hcs]. destruct (cardSelection st c) as [v|] eqn:Ec.
      * destruct (decide (data_dimension c = d)) as [<-|Hne].
        -- by rewrite lookup_insert_eq in Hm.
        -- rewrite lookup_insert_ne in Hm by done. split; [done|].
           intros c' [->|Hc']%elem_of_cons Hd; [done|by apply Hcs].
      * split; [done|]. intros c' [->|Hc']%elem_of_cons Hd; [done|by apply Hcs].
    + intros [Hm Hcs]. split.
      * destruct (cardSelection st c) as [v|] eqn:Ec; [|done].
        destruct (decide (data_dimension c = d)) as [Hd|Hne].
        -- rewrite (Hcs c) in Ec; [done|left|done].
        -- by rewrite lookup_insert_ne.
      * intros c' Hc'. apply Hcs. by right.
Qed.

Lemma selection_fold_other (st : session) (cs : list card) (m : gmap string qvalue)
    (d : string) :
  d ∉ map data_dimension cs -> foldl (selectionStep st) m cs !! d = m !! d.
Proof.
  revert m. induction cs as [|c cs IH]; intros m Hd; simpl; [done|].
  simpl in Hd. apply not_elem_of_cons in Hd as [Hne Hd].
  rewrite IH by done. unfold selectionStep.
  destruct (cardSelection st c); [|done]. by rewrite lookup_insert_ne.
Qed.

Lemma selection_fold_card (st : session) (cs : list card) (m : gmap string qvalue)
    (c : card) :
  NoDup (map data_dimension cs) -> c ∈ cs ->
  foldl (selectionStep st) m cs !! data_dimension c =
  match cardSelection st c with
  | Some v => Some v
  | None => m !! data_dimension c
  end.
Proof.
  revert m. induction cs as [|c0 cs IH]; intros m Hnd Hc; [by apply elem_of_nil in Hc|].
  simpl in *. apply NoDup_cons in Hnd as [Hc0 Hnd].
  apply elem_of_cons in Hc as [->|Hc].
  - rewrite selection_fold_other by done. unfold selectionStep.
    destruct (cardSelection st c0); [by rewrite lookup_insert_eq|done].
  - rewrite IH by done. destruct (cardSelection st c) as [v|]; [done|].
    assert (data_dimension c0 <> data_dimension c).
    { intros Heq. apply Hc0. rewrite Heq. by apply list_elem_of_fmap_2. }
    unfold selectionStep. destruct (cardSelection st c0); [|done].
    by rewrite lookup_insert_ne.
Qed.

(** With one card per dimension, the query holds for a dimension exactly what
    its card assigns. *)
Lemma getVariableSelection_card (st : session) (c : card) :
  NoDup (map data_dimension (cards st)) -> c ∈ cards st ->
  getVariableSelection st !! data_dimension c = cardSelection st c.
Proof.
  intros Hnd Hc. unfold getVariableSelection.
  rewrite selection_fold_card by done.
  destruct (cardSelection st c); [done|apply lookup_empty].
Qed.

(** ** Cardinality *)

(** With the top-n input empty or missing the two readers of the input use
    different defaults: the query asks for the last 10 values, the estimate
    counts 12. *)
Lemma top_mode_defaults (st : session) (c : card) (cont : container) :
  value_list_container c = Some cont -> data_mode cont = "top" ->
  value_or (top_n_input c) "" = "" ->
  cardSelection st c = Some (QString "top(10)")
  /\ dimSelectedCount st c cont =
       Num (Z.min 12 (getTrueDimensionValueCount st (data_dimension c))).
Proof.
  intros Hcont Hmode Hempty.
  assert (Hdflt : forall d, value_or (top_n_input c) d = d).
  { intros d. unfold value_or in *. destruct (top_n_input c) as [s|]; [|done].
    destruct (decide (s = "")); [done|]. by subst s. }
  unfold cardSelection, dimSelectedCount. rewrite Hcont, Hmode, !Hdflt. by simpl.
Qed.

(** What the estimate does per mode: the true maximum count of a dimension
    is the size of the active codelist's [originalCodes] if a codelist is
    active and the number of base categories otherwise; the selected count of
    an included dimension is that maximum in star mode and, in top mode,
    min(n, maximum) for n the number [parseInt] reads from the top-n input
    (12 when the input is empty or missing); for Sex (size 2, star) and the
    year dimension (size 5, top mode, 2 typed) the selected cell count is
    2 * min(2, 5) = 4. *)
Theorem selected_count_all_and_topN (st : session) (c : card) (cont : container) :
  value_list_container c = Some cont ->
  getTrueDimensionValueCount st (data_dimension c) =
    match activeCodelist st (data_dimension c) with
    | Some codelistInfo => Z.of_nat (length (originalCodes codelistInfo))
    | None =>
        match metaDimension st (data_dimension c) with
        | Some dim => Z.of_nat (length (cat_label (dim_category dim)))
        | None => 0
        end
    end
  /\ (data_mode cont = "star" ->
      skippedCard c cont = false /\
      dimSelectedCount st c cont = Num (getTrueDimensionValueCount st (data_dimension c)))
  /\ (forall s n, data_mode cont = "top" -> top_n_input c = Some s -> s <> "" ->
        parseInt s = Num n ->
        skippedCard c cont = false /\
        dimSelectedCount st c cont =
          Num (Z.min n (getTrueDimensionValueCount st (data_dimension c))))
  /\ (data_mode cont = "top" -> value_or (top_n_input c) "12" = "12" ->
      dimSelectedCount st c cont =
        Num (Z.min 12 (getTrueDimensionValueCount st (data_dimension c))))
  /\ updateSelectionCellCount sexYear = 2 * Z.min 2 5
  /\ updateSelectionCellCount sexYear = 4.
Proof.
  intros Hcont. split; [|split; [|split; [|split; [|split; reflexivity]]]];
    [| | |intros Hmode Hdflt; unfold dimSelectedCount;
          by rewrite Hmode, Hdflt].
  - unfold getTrueDimensionValueCount, metaDimension.
    destruct (activeCodelist st (data_dimension c)); [done|].
    destruct (tableMetadata st) as [md|]; [|done]. simpl.
    by destruct (md_dimension md !! data_dimension c).
  - intros Hmode. split.
    + unfold skippedCard. rewrite Hmode. simpl. by rewrite andb_false_r.
    + unfold dimSelectedCount. by rewrite decide_True.
  - intros s n Hmode Hin Hs Hn. split.
    + unfold skippedCard. rewrite Hmode. simpl. by rewrite andb_false_r.
    + unfold dimSelectedCount. rewrite Hmode. simpl.
      unfold value_or. rewrite Hin. rewrite decide_False by done. by rewrite Hn.
Qed.

Lemma selected_count_all_and_topN_witness :
  skippedCard yearCard (Container "top" (rev yearItems)) = false /\
  dimSelectedCount sexYear yearCard (Container "top" (rev yearItems))
  = Num (Z.min 2 (getTrueDimensionValueCount sexYear "Tid")).
Proof.
  apply (proj1 (proj2 (proj2 (selected_count_all_and_topN sexYear yearCard
           (Container "top" (rev yearItems)) eq_refl))) "2" 2); [reflexivity|reflexivity|discriminate|reflexivity].
Defined.

(** In the Sex/year session the query asks for the last 2 years and the
    estimate counts 2 of them. *)
Example sexYear_query_and_count :
  getVariableSelection sexYear !! "Sex" = Some (QString "*")
  /\ getVariableSelection sexYear !! "Tid" = Some (QString "top(2)")
  /\ updateSelectionCellCount sexYear = 2 * spec_topN_count 2 5.
Proof. repeat split; vm_compute; reflexivity. Qed.

(** C3, at the input where the code leaves it: a mandatory time dimension
    with 20 values in top mode, the top-n input cleared. The query that
    [getVariableSelection] builds is TopN(10), so the claim counts
    min(10, 20) = 10 selected values; [updateSelectionCellCount], reading the
    same empty input with its own default, counts 12. *)
Theorem topN_count_differs_from_query :
  getVariableSelection tidCleared !! "Tid" = Some (QString "top(10)")
  /\ getTrueDimensionValueCount tidCleared "Tid" = 20
  /\ skippedCard (twentyYearsCard "") twentyYearsContainer = false
  /\ dimSelectedCount tidCleared (twentyYearsCard "") twentyYearsContainer = Num 12
  /\ updateSelectionCellCount tidCleared = 12
  /\ spec_topN_count 10 20 = 10
  /\ updateSelectionCellCount tidCleared <> spec_topN_count 10 20.
Proof.
  assert (Hq : getVariableSelection tidCleared !! "Tid" = Some (QString "top(10)"))
    by (vm_compute; reflexivity).
  assert (Hn : updateSelectionCellCount tidCleared = 12) by (vm_compute; reflexivity).
  split; [exact Hq|]. split; [vm_compute; reflexivity|].
  split; [vm_compute; reflexivity|]. split; [vm_compute; reflexivity|].
  split; [exact Hn|]. split; [reflexivity|].
  rewrite Hn. unfold spec_topN_count. lia.
Qed.

(** With a number typed the two readers agree as long as the text is all
    digits; an exponent, which a number input accepts, is read by [parseInt]
    up to the letter. *)
Example topN_typed_input :
  getVariableSelection (tidTop "5") !! "Tid" = Some (QString "top(5)")
  /\ updateSelectionCellCount (tidTop "5") = spec_topN_count 5 20
  /\ getVariableSelection (tidTop "1e3") !! "Tid" = Some (QString "top(1e3)")
  /\ updateSelectionCellCount (tidTop "1e3") = 1.
Proof. repeat split; vm_compute; reflexivity. Qed.

(** ** Validation *)

(** [validateSelection] holds exactly when the metadata is loaded and every
    mandatory dimension of [tableMetadata.id] has a truthy value that is not
    the empty array. *)
Lemma validateSelection_iff (st : session) (selection : gmap string qvalue) :
  validateSelection st selection = true <->
  exists md, tableMetadata st = Some md /\
    forall d, d ∈ md_id md -> isElimination st d = false ->
              hasValues (selection !! d) = true.
Proof.
  unfold validateSelection. destruct (tableMetadata st) as [md|].
  - rewrite forallb_forall. split.
    + intros H. exists md. split; [done|]. intros d Hd He.
      apply list_elem_of_In in Hd. specialize (H d Hd). by rewrite He in H.
    + intros (md' & [= <-] & H) d Hd. apply list_elem_of_In in Hd.
      destruct (isElimination st d) eqn:He; [done|]. by apply H.
  - split; [discriminate|]. by intros (md & ? & _).
Qed.

(** Everything the specification calls non-empty is accepted by the code. *)
Lemma spec_nonEmpty_hasValues (v : option qvalue) :
  spec_nonEmpty v = true -> hasValues v = true.
Proof.
  destruct v as [[l|s]|]; simpl; [done| |done].
  destruct (decide (s = "")) as [->|Hs]; [done|].
  intros _. by rewrite bool_decide_eq_false_2.
Qed.

Lemma validateSelection_complete (st : session) (selection : gmap string qvalue)
    (md : metadata) :
  tableMetadata st = Some md ->
  (forall d, d ∈ md_id md -> isElimination st d = false ->
             spec_nonEmpty (selection !! d) = true) ->
  validateSelection st selection = true.
Proof.
  intros Hmd H. apply validateSelection_iff. exists md. split; [done|].
  intros d Hd He. apply spec_nonEmpty_hasValues. by apply H.
Qed.

(** An absent value or an empty array on a mandatory dimension makes the
    query invalid. *)
Lemma validateSelection_missing (st : session) (selection : gmap string qvalue)
    (md : metadata) (d : string) :
  tableMetadata st = Some md -> d ∈ md_id md -> isElimination st d = false ->
  selection !! d = None \/ selection !! d = Some (QCodes []) ->
  validateSelection st selection = false.
Proof.
  intros Hmd Hd He Hv. apply not_true_is_false. intros Hvalid.
  apply validateSelection_iff in Hvalid as (md' & Hmd' & H).
  rewrite Hmd in Hmd'. injection Hmd' as <-.
  specialize (H d Hd He). by destruct Hv as [Hv|Hv]; rewrite Hv in H.
Qed.

(** C4, at the input where the code departs from it: a mandatory time
    dimension in top mode with 0 in the top-n input. The query holds
    "top(0)", which is not a top(n) with n >= 1, yet [validateSelection]
    returns true; [updateSelectionCellCount], run on the same state, counts
    the dimension as a mandatory one without selection and returns 0. *)
Theorem validateSelection_accepts_top0 :
  getVariableSelection tidTop0 !! "Tid" = Some (QString "top(0)")
  /\ isElimination tidTop0 "Tid" = false
  /\ spec_nonEmpty (getVariableSelection tidTop0 !! "Tid") = false
  /\ validateSelection tidTop0 (getVariableSelection tidTop0) = true
  /\ hasMissingMandatory
       (foldl (cellCountStep tidTop0) (CellCount 1 1 false false) (cards tidTop0)) = true
  /\ updateSelectionCellCount tidTop0 = 0.
Proof. repeat split; vm_compute; reflexivity. Qed.

(** ** Query construction *)

(** C5: a dimension whose (every) card is eliminable, in specific mode, and
    resolves to no code is left out of the query object: its key is absent,
    neither an empty array nor a placeholder is stored. *)
Theorem eliminable_empty_omitted (st : session) (d : string) :
  (forall c cont, c ∈ cards st -> data_dimension c = d ->
     value_list_container c = Some cont ->
     data_elimination c = true /\ data_mode cont <> "star" /\ data_mode cont <> "top"
     /\ specificValues st c cont = []) ->
  getVariableSelection st !! d = None.
Proof.
  intros H. unfold getVariableSelection. apply selection_fold_None.
  split; [apply lookup_empty|]. intros c Hc Hd. unfold cardSelection.
  destruct (value_list_container c) as [cont|] eqn:Econt; [|done].
  destruct (H c cont Hc Hd Econt) as (He & Hstar & Htop & Hvals).
  rewrite decide_False by done. rewrite decide_False by done.
  by rewrite He, Hvals.
Qed.

Lemma eliminable_empty_omitted_witness :
  getVariableSelection regionOmitted !! "Region" = None.
Proof.
  apply (eliminable_empty_omitted regionOmitted "Region").
  intros c cont Hc Hd Hcont.
  apply elem_of_cons in Hc as [->|Hc].
  - injection Hcont as <-. split; [reflexivity|]. split; [discriminate|].
    split; [discriminate|reflexivity].
  - apply list_elem_of_singleton in Hc. subst c. discriminate Hd.
Defined.

Lemma specificValues_Permutation (st : session) (c : card) (cont : container) :
  specificValues st c cont ≡ₚ selectedValues st c cont.
Proof.
  unfold specificValues. destruct (isTimeDim (data_dimension c)); [|done].
  destruct (categoryIndex st (data_dimension c)); [|done].
  apply sort_by_Permutation.
Qed.

(** C6: with a codelist active, star mode emits exactly the codelist's
    [originalCodes] as an array, never "*"; specific mode emits the union,
    without duplicates, of the value maps of the selected entries (unless the
    dimension is optional and that union is empty, when the key is omitted);
    under a filter codelist, where each entry maps to its own code, the
    emitted codes are the selected codes (in selection order, or in time
    order for a time dimension). *)
Theorem codelist_emits_base_codes
    (st : session) (c : card) (cont : container) (info : codelistInfo) :
  NoDup (map data_dimension (cards st)) -> c ∈ cards st ->
  value_list_container c = Some cont ->
  activeCodelist st (data_dimension c) = Some info ->
  (data_mode cont = "star" ->
     getVariableSelection st !! data_dimension c = Some (QCodes (originalCodes info)))
  /\ (data_mode cont <> "star" -> data_mode cont <> "top" ->
      getVariableSelection st !! data_dimension c =
        (if data_elimination c && bool_decide (specificValues st c cont = [])
         then None else Some (QCodes (specificValues st c cont)))
      /\ NoDup (specificValues st c cont)
      /\ (forall code, code ∈ specificValues st c cont <->
            exists item valueMap, item ∈ selectedItems cont /\
              data_valuemap item = JsonArray valueMap /\ code ∈ valueMap)
      /\ ((forall item, item ∈ selectedItems cont ->
             data_valuemap item = JsonArray [data_code item]) ->
          NoDup (map data_code (selectedItems cont)) ->
          specificValues st c cont ≡ₚ map data_code (selectedItems cont)
          /\ (isTimeDim (data_dimension c) = false ->
              specificValues st c cont = map data_code (selectedItems cont)))).
Proof.
  intros Hnd Hc Hcont Hinfo. rewrite (getVariableSelection_card st c Hnd Hc).
  unfold cardSelection. rewrite Hcont. split.
  - intros Hmode. rewrite decide_True by done. by rewrite Hinfo.
  - intros Hstar Htop. rewrite decide_False by done. rewrite decide_False by done.
    assert (Hsel : selectedValues st c cont = expandedCodes (selectedItems cont)).
    { unfold selectedValues. by rewrite Hinfo. }
    pose proof (specificValues_Permutation st c cont) as Hperm. rewrite Hsel in Hperm.
    split; [done|]. split; [|split].
    + rewrite Hperm. apply expand_NoDup. constructor.
    + intros code. rewrite Hperm. unfold expandedCodes. rewrite expand_elem.
      rewrite elem_of_nil. tauto.
    + intros Hfilter Hcodes.
      assert (Hexp : expandedCodes (selectedItems cont) = map data_code (selectedItems cont)).
      { unfold expandedCodes. by rewrite expand_filter. }
      split; [by rewrite Hperm, Hexp|].
      intros Htime. unfold specificValues. by rewrite Htime, Hsel, Hexp.
Qed.

Lemma codelist_emits_base_codes_witness :
  getVariableSelection alderGrouped !! "Alder" = Some (QCodes ["00-19"; "20-39"; "40-66"])
  /\ NoDup (specificValues alderGrouped alderCard alderContainer).
Proof.
  assert (Hnd : NoDup (map data_dimension (cards alderGrouped))).
  { apply NoDup_singleton. }
  assert (Hc : alderCard ∈ cards alderGrouped) by left.
  destruct (codelist_emits_base_codes alderGrouped alderCard alderContainer alderInfo
              Hnd Hc eq_refl eq_refl) as [_ Hspecific].
  destruct Hspecific as (Hq & Hd & _); [discriminate|discriminate|].
  split; [exact Hq|exact Hd].
Defined.



(** A code without index has key 0, as the first category has; the codes of
    key 0 keep their order among themselves. *)
Example sort_by_stable_example :
  sort_by (indexKey tidIndex) ["x"; "2021"; "2019"; "a"; "2019K"]
  = ["x"; "2019"; "a"; "2019K"; "2021"].
Proof. vm_compute. reflexivity. Qed.

Example time_dimension_sorted_example :
  getVariableSelection tidNewestFirst !! "Tid" = Some (QCodes ["2019"; "2021"; "2023"])
  /\ isTimeDim "Tid" = true /\ isTimeDim "KvartalsTID" = true /\ isTimeDim "Region" = false.
Proof. repeat split; vm_compute; reflexivity. Qed.


(** ** Codelist resolution *)

Lemma on_card_lookup (k : nat) (f : card -> card) (st : session) (j : nat) :
  cards (on_card k f st) !! j =
  if decide (j = k) then f <$> cards st !! j else cards st !! j.
Proof.
  unfold on_card. simpl. destruct (decide (j = k)) as [->|Hne].
  - apply list_lookup_alter_eq.
  - by apply list_lookup_alter_ne.
Qed.

(** The handler on a failed fetch: disable, report, enable, reset. *)
Lemma codelistChange_failure (st : session) (k : nat) (c : card) (codelistId : string) :
  cards st !! k = Some c ->
  chosenCodelist st k = Some codelistId -> codelistId <> "" ->
  codelistChange st k None =
  on_card k resetSelection
    (on_card k (set_disabled false)
       (showError "Kunne ikke laste kodeliste" (on_card k (set_disabled true) st))).
Proof.
  intros Hc Hid Hne. unfold codelistChange. rewrite Hid, decide_False by done.
  unfold codelistChange_end, codelistChange_begin.
  by rewrite on_card_lookup, decide_True, Hc.
Qed.

(** C8, as the code has it: when the fetch of the chosen codelist fails, the
    failure is passed to [showError]; the codelist state of every dimension,
    the affected one included, is what it was before the attempt (the base
    categories and the dimension's own flag only if no codelist was active
    before); the affected card keeps its elimination flag and its value list,
    its dropdown is enabled again and its selection is reset to the empty
    explicit one; every other card is unchanged. *)
Theorem codelist_failure_keeps_state
    (st : session) (k : nat) (c : card) (codelistId : string) :
  cards st !! k = Some c ->
  chosenCodelist st k = Some codelistId -> codelistId <> "" ->
  shown_errors (codelistChange st k None) = shown_errors st ++ ["Kunne ikke laste kodeliste"]
  /\ activeCodelists (codelistChange st k None) = activeCodelists st
  /\ activeCodelistIds (codelistChange st k None) = activeCodelistIds st
  /\ tableMetadata (codelistChange st k None) = tableMetadata st
  /\ (forall d, activeCodelist (codelistChange st k None) d = activeCodelist st d)
  /\ (forall j, j <> k -> cards (codelistChange st k None) !! j = cards st !! j)
  /\ cards (codelistChange st k None) !! k = Some (resetSelection (set_disabled false c))
  /\ data_dimension (resetSelection (set_disabled false c)) = data_dimension c
  /\ data_elimination (resetSelection (set_disabled false c)) = data_elimination c
  /\ (forall cont, value_list_container c = Some cont ->
        value_list_container (resetSelection (set_disabled false c)) =
        Some (Container "specific"
                (map (fun it => ValueItem (data_code it) (data_valuemap it) false)
                     (items cont)))).
Proof.
  intros Hc Hid Hne.
  rewrite (codelistChange_failure st k c codelistId Hc Hid Hne).
  repeat split.
  - intros j Hj. rewrite !on_card_lookup, !decide_False by done.
    change (cards (showError ?m ?s)) with (cards s).
    by rewrite on_card_lookup, decide_False.
  - rewrite !on_card_lookup, !decide_True by done.
    change (cards (showError ?m ?s)) with (cards s).
    rewrite on_card_lookup, decide_True, Hc by done. simpl.
    unfold resetSelection, set_disabled. simpl.
    by destruct (value_list_container c), (codelist_dropdown c).
  - unfold resetSelection. simpl. by destruct (value_list_container c).
  - unfold resetSelection. simpl. by destruct (value_list_container c).
  - intros cont Hcont. unfold resetSelection. simpl. by rewrite Hcont.
Qed.

Lemma codelist_failure_keeps_state_witness :
  activeCodelists (codelistChange alderSwitching 0 None) = activeCodelists alderSwitching
  /\ cards (codelistChange alderSwitching 0 None) !! 0%nat
     = Some (resetSelection (set_disabled false alderOptionalCard)).
Proof.
  destruct (codelist_failure_keeps_state alderSwitching 0 alderOptionalCard "vs_Alder")
    as (_ & Hcl & _ & _ & _ & _ & Hcard & _).
  - reflexivity.
  - reflexivity.
  - discriminate.
  - split; [exact Hcl|exact Hcard].
Defined.

(** C8 as the specification words it fails: after a failed fetch the
    dimension that had a codelist still has it, with that codelist's
    elimination flag and entries, not the base categories and the original
    flag. *)
Lemma codelist_failure_no_fallback :
  ~ spec_falls_back alderSwitching (codelistChange alderSwitching 0 None) 0.
Proof.
  intros H.
  destruct (H (resetSelection (set_disabled false alderOptionalCard))
              (Dimension
                  (Category [("00-19", "0-19"); ("20-39", "20-39"); ("40-66", "40-66");
                             ("67+", "67+")]
                     (Some (<["00-19" := 0]> (<["20-39" := 1]> (<["40-66" := 2]>
                            (<["67+" := 3]> ∅)))))) false
                  [CodelistRef "vs_Alder" "Alder"; CodelistRef "agg_Alder" "Aldersgrupper"]))
    as (Hnone & Hflag & _).
  - reflexivity.
  - reflexivity.
  - discriminate Hflag.
Qed.

(** A codelist resource without a [values] array is not a failure for the
    handler: it becomes the active codelist, with no entry and no code. *)
Example codelistChange_without_values :
  let st' := codelistChange alderSwitching 0
               (Some (CodelistData (Some "vs_Alder") false None)) in
  activeCodelist st' "Alder" = Some (CodelistInfo "vs_Alder" false false [] [])
  /\ shown_errors st' = []
  /\ (value_list_container <$> cards st' !! 0%nat)
     = Some (Some (Container "specific" [])).
Proof. repeat split; vm_compute; reflexivity. Qed.

(** ** Layout validation *)

Lemma ascii_compare_lt_trans (x y z : ascii) :
  Ascii.compare x y = Lt -> Ascii.compare y z = Lt -> Ascii.compare x z = Lt.
Proof.
  unfold Ascii.compare. rewrite !N.compare_lt_iff. apply N.lt_trans.
Qed.

Lemma string_leb_trans (a b c : string) :
  String.leb a b = true -> String.leb b c = true -> String.leb a c = true.
Proof.
  unfold String.leb. revert b c.
  induction a as [|x a IH]; intros [|y b] [|z c]; simpl; try done.
  destruct (Ascii.compare x y) eqn:Exy; [| |done];
    destruct (Ascii.compare y z) eqn:Eyz; try done.
  - apply Ascii.compare_eq_iff in Exy as ->. rewrite Eyz. apply IH.
  - apply Ascii.compare_eq_iff in Exy as ->. by rewrite Eyz.
  - apply Ascii.compare_eq_iff in Eyz as <-. by rewrite Exy.
  - by rewrite (ascii_compare_lt_trans x y z).
Qed.

Lemma insert_string_Permutation (x : string) (l : list string) :
  insert_string x l ≡ₚ x :: l.
Proof.
  induction l as [|y rest IH]; simpl; [done|].
  destruct (String.leb x y); [done|]. rewrite IH. apply Permutation_swap.
Qed.

Lemma sort_strings_Permutation (l : list string) : sort_strings l ≡ₚ l.
Proof.
  induction l as [|x rest IH]; simpl; [done|].
  by rewrite insert_string_Permutation, IH.
Qed.

Lemma insert_string_sorted (x : string) (l : list string) :
  StronglySorted (fun a b => String.leb a b = true) l ->
  StronglySorted (fun a b => String.leb a b = true) (insert_string x l).
Proof.
  induction 1 as [|y rest Hs IH Hall]; simpl.
  - constructor; constructor.
  - destruct (String.leb x y) eqn:Hle.
    + constructor; [by constructor|]. constructor; [done|].
      eapply Forall_impl; [exact Hall|]. simpl. intros z. by apply string_leb_trans.
    + constructor; [done|]. rewrite insert_string_Permutation.
      constructor; [|done].
      destruct (String.leb_total x y) as [H|H]; [congruence|done].
Qed.

Lemma sort_strings_sorted (l : list string) :
  StronglySorted (fun a b => String.leb a b = true) (sort_strings l).
Proof.
  induction l as [|x rest IH]; simpl; [constructor|]. by apply insert_string_sorted.
Qed.

(** Two sorted arrays are equal exactly when the arrays hold the same codes
    with the same multiplicities. *)
Lemma sort_strings_eq_iff (l1 l2 : list string) :
  sort_strings l1 = sort_strings l2 <-> l1 ≡ₚ l2.
Proof.
  split.
  - intros Heq. rewrite <- (sort_strings_Permutation l1), Heq.
    apply sort_strings_Permutation.
  - intros Hperm.
    apply (StronglySorted_unique_strong (fun a b => String.leb a b = true)).
    + intros x y _ _. apply String.leb_antisym.
    + apply sort_strings_sorted.
    + apply sort_strings_sorted.
    + by rewrite !sort_strings_Permutation.
Qed.

(** C9, as the code has it: with the cube loaded and both zones in the
    dialog, a proposal whose codes are not the dimensions of the cube with
    the right multiplicities (a dimension left out, or listed twice) is
    rejected: the message is passed to [showError] and layout, data and
    dialog stay as they were. A proposal that partitions the dimensions is
    accepted and becomes the layout, provided it is not empty; the empty
    proposal, which partitions only a cube without dimensions, is rejected
    by the second guard. *)
Theorem applyRotation_validates
    (v : tableView) (data : dataset) (newRows newCols : list string) :
  currentData v = Some data ->
  (~ newRows ++ newCols ≡ₚ data_id data ->
     applyRotation v (Overlay (Some newRows) (Some newCols)) =
       Returns (TableView (currentData v) (tableLayout v)
                  (view_errors v ++ [msg_all_dimensions]) (dialog_open v) (displayed v)))
  /\ (newRows ++ newCols ≡ₚ data_id data -> newRows ++ newCols <> [] ->
      applyRotation v (Overlay (Some newRows) (Some newCols)) =
        Returns (TableView (currentData v) (Layout newRows newCols)
                   (view_errors v) false (S (displayed v))))
  /\ (newRows ++ newCols ≡ₚ data_id data -> newRows ++ newCols = [] ->
      applyRotation v (Overlay (Some newRows) (Some newCols)) =
        Returns (TableView (currentData v) (tableLayout v)
                   (view_errors v ++ [msg_no_dimension]) (dialog_open v) (displayed v))).
Proof.
  destruct v as [cd lay errs dlg n]. simpl. intros ->.
  unfold applyRotation, view_showError. simpl.
  split; [|split].
  - intros Hperm. rewrite bool_decide_eq_false_2; [reflexivity|].
    by rewrite sort_strings_eq_iff.
  - intros Hperm Hne. rewrite bool_decide_eq_true_2 by by apply sort_strings_eq_iff.
    simpl. destruct newRows as [|r rs]; [|done].
    destruct newCols as [|c cs]; [by destruct Hne|]. by simpl.
  - intros Hperm Hnil. rewrite bool_decide_eq_true_2 by by apply sort_strings_eq_iff.
    apply app_eq_nil in Hnil as [-> ->]. done.
Qed.

Lemma applyRotation_validates_witness :
  applyRotation kjonnTidView (Overlay (Some ["Tid"]) (Some ["Kjonn"])) =
  Returns (TableView (Some kjonnTid) (Layout ["Tid"] ["Kjonn"]) [] false 2).
Proof.
  apply (proj1 (proj2 (applyRotation_validates kjonnTidView kjonnTid ["Tid"] ["Kjonn"]
                         eq_refl))).
  - simpl. apply Permutation_swap.
  - discriminate.
Defined.

Example applyRotation_rejects_omission_and_duplicate :
  applyRotation kjonnTidView (Overlay (Some ["Tid"]) (Some []))
    = Returns (view_showError msg_all_dimensions kjonnTidView)
  /\ applyRotation kjonnTidView (Overlay (Some ["Tid"; "Kjonn"]) (Some ["Tid"]))
    = Returns (view_showError msg_all_dimensions kjonnTidView).
Proof. split; vm_compute; reflexivity. Qed.

(** C9 as the specification words it fails on the cube without dimensions:
    the empty proposal partitions its dimensions, yet it is rejected with
    'Tabellen må ha minst én dimensjon'. *)
Lemma applyRotation_rejects_empty_partition :
  ~ spec_layout_accepted singleCellView singleCell [] [].
Proof.
  intros H. destruct H as (v' & Hret & _ & Herr); [done|].
  vm_compute in Hret. injection Hret as <-. discriminate Herr.
Qed.
(** * Further properties *)

(** ** Header combinations *)

Lemma extendCombinations_length (cat : list (string * Z)) (combinations : list header) :
  length (extendCombinations cat combinations) = (length combinations * length cat)%nat.
Proof.
  unfold extendCombinations.
  induction combinations as [|c cs IH]; simpl; [done|].
  rewrite length_app, length_map, IH. lia.
Qed.

Lemma extendCombinations_arity (cat : list (string * Z)) (combinations : list header)
    (n : nat) :
  Forall (fun h => length (codes h) = n /\ length (indices h) = n) combinations ->
  Forall (fun h => length (codes h) = S n /\ length (indices h) = S n)
         (extendCombinations cat combinations).
Proof.
  unfold extendCombinations. induction 1 as [|c cs [Hc Hi] _ IH]; simpl; [constructor|].
  apply Forall_app. split; [|done].
  apply Forall_fmap, Forall_forall. intros [code index] _. simpl.
  rewrite !length_app. simpl. lia.
Qed.

Lemma buildDimensionCombinations_found (dimCodes : list string)
    (dims : gmap string (list (string * Z))) (cats : list (list (string * Z)))
    (start : list header) :
  Forall2 (fun d cat => dims !! d = Some cat) dimCodes cats ->
  foldl (fun acc dimCode =>
           combinations ← acc; cat ← dims !! dimCode;
           Some (extendCombinations cat combinations))
        (Some start) dimCodes
  = Some (combinationsOf cats start).
Proof.
  intros H. revert start. induction H as [|d cat ds cats Hd _ IH]; intros start; [done|].
  simpl. rewrite Hd. simpl. apply IH.
Qed.

Lemma combinationsOf_snoc (cats : list (list (string * Z))) (cat : list (string * Z))
    (start : list header) :
  combinationsOf (cats ++ [cat]) start = extendCombinations cat (combinationsOf cats start).
Proof. unfold combinationsOf. by rewrite foldl_app. Qed.

Lemma combinationsOf_length (cats : list (list (string * Z))) :
  Z.of_nat (length (combinationsOf cats [Header [] []]))
  = cells (map (fun cat => Z.of_nat (length cat)) cats).
Proof.
  induction cats as [|cat cats IH] using rev_ind; [done|].
  rewrite combinationsOf_snoc, extendCombinations_length, map_app.
  unfold cells in *. rewrite foldr_app. simpl.
  rewrite Nat2Z.inj_mul, IH.
  generalize (map (fun cat0 : list (string * Z) => Z.of_nat (length cat0)) cats).
  intros l. induction l as [|x l IHl]; simpl; lia.
Qed.

Lemma combinationsOf_arity (cats : list (list (string * Z))) :
  Forall (fun h => length (codes h) = length cats /\ length (indices h) = length cats)
         (combinationsOf cats [Header [] []]).
Proof.
  induction cats as [|cat cats IH] using rev_ind; [by repeat constructor|].
  rewrite combinationsOf_snoc, length_app. simpl.
  replace (length cats + 1)%nat with (S (length cats)) by lia.
  by apply extendCombinations_arity.
Qed.

(** X1: when every code has its dimension, [buildDimensionCombinations]
    returns as many combinations as the product of the category counts, each
    with one code and one index per dimension; a code without dimension makes
    it throw. *)
Theorem buildDimensionCombinations_product (dimCodes : list string)
    (dims : gmap string (list (string * Z))) :
  (forall cats, Forall2 (fun d cat => dims !! d = Some cat) dimCodes cats ->
     exists combinations,
       buildDimensionCombinations dimCodes dims = Some combinations
       /\ Z.of_nat (length combinations)
          = cells (map (fun cat => Z.of_nat (length cat)) cats)
       /\ Forall (fun h => length (codes h) = length dimCodes
                           /\ length (indices h) = length dimCodes) combinations)
  /\ (forall d, d ∈ dimCodes -> dims !! d = None ->
        buildDimensionCombinations dimCodes dims = None).
Proof.
  split.
  - intros cats Hcats. exists (combinationsOf cats [Header [] []]).
    split; [by apply buildDimensionCombinations_found|].
    split; [apply combinationsOf_length|].
    rewrite (Forall2_length _ _ _ Hcats). apply combinationsOf_arity.
  - intros d Hd Hnone. unfold buildDimensionCombinations.
    generalize (Some [Header [] []]).
    induction dimCodes as [|d0 ds IH]; intros acc; [by apply elem_of_nil in Hd|].
    simpl. apply elem_of_cons in Hd as [<-|Hd].
    + rewrite Hnone. destruct acc; simpl; clear; by induction ds.
    + by apply IH.
Qed.

Lemma indexOf_lookup (arr : list string) (i : nat) (d : string) :
  NoDup arr -> arr !! i = Some d -> indexOf d arr = Some i.
Proof.
  intros Hnd. revert i. induction Hnd as [|x rest Hx _ IH]; intros i Hi; [done|].
  simpl. destruct i as [|i]; simpl in Hi.
  - injection Hi as ->. by rewrite decide_True.
  - rewrite decide_False.
    + by rewrite (IH i Hi).
    + intros ->. apply Hx. by eapply list_elem_of_lookup_2.
Qed.

(** With every dimension in the rows, the index vector is the row header's. *)
Lemma fullIndices_all_rows (data : dataset) (rowHeader colHeader : header)
    (cols : list string) :
  NoDup (data_id data) -> length (indices rowHeader) = length (data_id data) ->
  fullIndices (Layout (data_id data) cols) data rowHeader colHeader
  = Some <$> indices rowHeader.
Proof.
  intros Hnd Hlen. apply list_eq. intros i. unfold fullIndices.
  rewrite !list_lookup_fmap.
  destruct (data_id data !! i) as [d|] eqn:Hd; simpl.
  - unfold fullIndexOf. simpl. rewrite (indexOf_lookup _ i d Hnd Hd).
    destruct (lookup_lt_is_Some_2 (indices rowHeader) i) as [z Hz].
    + rewrite Hlen. by eapply lookup_lt_Some.
    + by rewrite Hz.
  - apply lookup_ge_None in Hd. rewrite lookup_ge_None_2 by lia. done.
Qed.

Lemma offsets_extend (s P : nat) :
  flat_map (fun o => map (fun i => i + Z.of_nat s * o) (map Z.of_nat (seq 0 s)))
           (map Z.of_nat (seq 0 P))
  = map Z.of_nat (seq 0 (P * s)).
Proof.
  induction P as [|P IH]; [done|].
  rewrite seq_S, map_app, flat_map_app, IH. simpl. rewrite app_nil_r.
  replace (P * s + s)%nat with (P * s + s)%nat by done.
  replace (s + P * s)%nat with (P * s + s)%nat by lia.
  rewrite seq_app, map_app. f_equal. simpl.
  replace (seq (P * s) s) with (Nat.add (P * s) <$> seq 0 s)
    by (rewrite fmap_add_seq; f_equal; lia).
  rewrite !map_map. apply map_ext. intros i. lia.
Qed.

(** The combinations come in row-major order: the flat offset of the k-th
    combination is k. *)
Lemma combinationsOf_offsets (cats : list (list (string * Z))) :
  Forall canonical cats ->
  map (fun h => spec_offset (indices h)
                  (spec_strides (map (fun cat => Z.of_nat (length cat)) cats)))
      (combinationsOf cats [Header [] []])
  = map Z.of_nat (seq 0 (length (combinationsOf cats [Header [] []]))).
Proof.
  induction cats as [|cat cats IH] using rev_ind; intros Hcan; [done|].
  apply Forall_app in Hcan as [Hcats Hcat]. apply Forall_inv in Hcat.
  unfold canonical in Hcat.
  specialize (IH Hcats).
  rewrite combinationsOf_snoc, extendCombinations_length, map_app. simpl.
  rewrite spec_strides_snoc.
  etrans; [|apply offsets_extend]. rewrite <- IH.
  pose proof (combinationsOf_arity cats) as Har.
  revert Har. generalize (combinationsOf cats [Header [] []]). intros combos Har.
  unfold extendCombinations. induction Har as [|c cs [_ Hi] _ IHc]; [done|].
  simpl. rewrite map_app, IHc. f_equal.
  rewrite map_map. rewrite <- Hcat. rewrite !map_map.
  apply map_ext. intros [code index]. simpl.
  rewrite spec_offset_snoc; [done|].
  by rewrite spec_strides_length, length_map.
Qed.

Lemma buildDimensionCombinations_product_witness :
  exists combinations,
    buildDimensionCombinations ["Kjonn"; "Tid"] kjonnTidDims = Some combinations
    /\ Z.of_nat (length combinations) = cells [2; 2]
    /\ Forall (fun h => length (codes h) = 2%nat /\ length (indices h) = 2%nat) combinations.
Proof.
  apply (proj1 (buildDimensionCombinations_product ["Kjonn"; "Tid"] kjonnTidDims)
           [[("1", 0); ("2", 1)]; [("2022", 0); ("2023", 1)]]).
  repeat constructor.
Defined.

(** X2: the header axis is in row-major order. With every dimension of the
    cube in the rows (in the cube's order) and category indices that count
    from 0 in key order, the k-th combination of
    [buildDimensionCombinations] addresses the k-th cell of the value
    array. *)
Theorem header_axis_row_major (data : dataset) (dims : gmap string (list (string * Z)))
    (cats : list (list (string * Z))) (colHeader : header) :
  NoDup (data_id data) ->
  Forall2 (fun d cat => dims !! d = Some cat) (data_id data) cats ->
  Forall canonical cats ->
  data_size data = map (fun cat => Z.of_nat (length cat)) cats ->
  exists combinations,
    buildDimensionCombinations (data_id data) dims = Some combinations
    /\ forall k rowHeader, combinations !! k = Some rowHeader ->
         calculateFlatIndex (Some <$> indices rowHeader) (data_size data)
           = Num (Z.of_nat k)
         /\ getDataValue (Some data) (Layout (data_id data) []) rowHeader colHeader
           = default JUndefined (data_value data !! k).
Proof.
  intros Hnd Hcats Hcan Hsize. exists (combinationsOf cats [Header [] []]).
  split; [by apply buildDimensionCombinations_found|].
  intros k rowHeader Hk.
  assert (Hlen : length (indices rowHeader) = length (data_id data)).
  { rewrite (Forall2_length _ _ _ Hcats).
    pose proof (combinationsOf_arity cats) as Har.
    rewrite Forall_forall in Har. apply Har. by eapply list_elem_of_lookup_2. }
  assert (Hflat : calculateFlatIndex (Some <$> indices rowHeader) (data_size data)
                  = Num (Z.of_nat k)).
  { rewrite calculateFlatIndex_offset.
    - f_equal. rewrite Hsize.
      pose proof (combinationsOf_offsets cats Hcan) as Hoff.
      apply (f_equal (fun l => l !! k)) in Hoff.
      rewrite !list_lookup_fmap, Hk in Hoff. simpl in Hoff.
      rewrite lookup_seq_lt in Hoff by by eapply lookup_lt_Some.
      by injection Hoff.
    - rewrite Hlen, Hsize, length_map. by eapply Forall2_length. }
  split; [done|]. unfold getDataValue.
  rewrite fullIndices_all_rows, Hflat by done. simpl.
  rewrite decide_True by lia. by rewrite Nat2Z.id.
Qed.

Lemma header_axis_row_major_witness :
  exists combinations,
    buildDimensionCombinations ["Kjonn"; "Tid"] kjonnTidDims = Some combinations
    /\ forall k rowHeader, combinations !! k = Some rowHeader ->
         calculateFlatIndex (Some <$> indices rowHeader) [2; 2] = Num (Z.of_nat k)
         /\ getDataValue (Some kjonnTid) (Layout ["Kjonn"; "Tid"] []) rowHeader
              (Header [] [])
           = default JUndefined (data_value kjonnTid !! k).
Proof.
  apply (header_axis_row_major kjonnTid kjonnTidDims
           [[("1", 0); ("2", 1)]; [("2022", 0); ("2023", 1)]] (Header [] [])).
  - apply NoDup_cons. split; [|apply NoDup_singleton].
    intros H. by apply list_elem_of_singleton in H.
  - repeat constructor.
  - repeat constructor.
  - reflexivity.
Defined.

Lemma fullIndexOf_transpose (newRows newCols : list string) (rowHeader colHeader : header)
    (d : string) :
  (forall x, x ∈ newRows -> x ∉ newCols) ->
  fullIndexOf (Layout newRows newCols) rowHeader colHeader d
  = fullIndexOf (Layout newCols newRows) colHeader rowHeader d.
Proof.
  intros Hdisj. unfold fullIndexOf. simpl.
  destruct (indexOf d newRows) as [i|] eqn:Hr, (indexOf d newCols) as [j|] eqn:Hc; try done.
  exfalso. apply indexOf_Some in Hr as Hi. apply indexOf_Some in Hc as Hj.
  assert (Hmem : forall l n, indexOf d l = Some n -> d ∈ l).
  { clear. induction l as [|y l IH]; intros n; simpl; [done|].
    destruct (decide (y = d)) as [->|]; [left|].
    destruct (indexOf d l) as [m|]; simpl; [|done]. intros _. right. by eapply IH. }
  apply (Hdisj d); by eapply Hmem.
Qed.

(** X3: transposing the layout does not move any value. When no dimension
    is in both lists, swapping rows and columns together with the two
    headers reads the same cell. *)
Theorem getDataValue_transpose (currentData : option dataset)
    (newRows newCols : list string) (rowHeader colHeader : header) :
  (forall x, x ∈ newRows -> x ∉ newCols) ->
  getDataValue currentData (Layout newRows newCols) rowHeader colHeader
  = getDataValue currentData (Layout newCols newRows) colHeader rowHeader.
Proof.
  intros Hdisj. destruct currentData as [data|]; [|done]. unfold getDataValue.
  replace (fullIndices (Layout newRows newCols) data rowHeader colHeader)
    with (fullIndices (Layout newCols newRows) data colHeader rowHeader); [done|].
  unfold fullIndices. apply map_ext. intros d. symmetry.
  by apply fullIndexOf_transpose.
Qed.

Lemma getDataValue_transpose_witness :
  getDataValue (Some kjonnTid) (Layout ["Kjonn"] ["Tid"]) (Header ["2"] [1]) (Header ["2022"] [0])
  = getDataValue (Some kjonnTid) (Layout ["Tid"] ["Kjonn"]) (Header ["2022"] [0]) (Header ["2"] [1]).
Proof.
  apply (getDataValue_transpose (Some kjonnTid) ["Kjonn"] ["Tid"]).
  intros x Hx Hx'. apply list_elem_of_singleton in Hx. apply list_elem_of_singleton in Hx'.
  subst x. discriminate Hx'.
Defined.

(** ** Default layout and presets *)

Lemma findIndex_Some {A : Type} (p : A -> bool) (arr : list A) (i : nat) :
  findIndex p arr = Some i ->
  exists x, arr !! i = Some x /\ p x = true
            /\ forall j y, (j < i)%nat -> arr !! j = Some y -> p y = false.
Proof.
  revert i. induction arr as [|x rest IH]; intros i; simpl; [done|].
  destruct (p x) eqn:Hp.
  - intros [= <-]. exists x. repeat split; [done|]. intros j y Hj. lia.
  - destruct (findIndex p rest) as [k|]; simpl; [|done]. intros [= <-].
    destruct (IH k eq_refl) as (y & Hy & Hpy & Hbefore).
    exists y. repeat split; [done..|]. intros [|j] z Hj Hz; simpl in Hz.
    + by injection Hz as <-.
    + apply (Hbefore j); [lia|done].
Qed.

Lemma findIndex_None {A : Type} (p : A -> bool) (arr : list A) :
  findIndex p arr = None -> Forall (fun x => p x = false) arr.
Proof.
  induction arr as [|x rest IH]; simpl; [constructor|].
  destruct (p x) eqn:Hp; [done|].
  destruct (findIndex p rest); [done|]. intros _. constructor; [done|by apply IH].
Qed.

Lemma filter_index_before {A : Type} (arr : list A) (k t : nat) :
  (t < k)%nat -> filter_index (fun j => negb (j =? t)%nat) k arr = arr.
Proof.
  revert k. induction arr as [|x rest IH]; intros k Hk; [done|]. simpl.
  destruct (k =? t)%nat eqn:E; [apply Nat.eqb_eq in E; lia|]. simpl.
  f_equal. apply IH. lia.
Qed.

(** Filtering out one position is deleting it. *)
Lemma filter_index_delete {A : Type} (arr : list A) (i k : nat) :
  filter_index (fun j => negb (j =? k + i)%nat) k arr = delete i arr.
Proof.
  revert i k. induction arr as [|x rest IH]; intros i k; [by destruct i|].
  simpl. destruct i as [|i].
  - replace (k + 0)%nat with k by lia. rewrite Nat.eqb_refl. simpl.
    apply filter_index_before. lia.
  - destruct (k =? k + S i)%nat eqn:E; [apply Nat.eqb_eq in E; lia|]. simpl.
    f_equal. replace (k + S i)%nat with (S k + i)%nat by lia. apply IH.
Qed.

Lemma determineDefaultLayout_time (dimensions : list string) (i : nat) :
  findIndex isTimeDim dimensions = Some i ->
  exists timeDim, dimensions !! i = Some timeDim /\ isTimeDim timeDim = true
    /\ determineDefaultLayout dimensions = Layout [timeDim] (delete i dimensions).
Proof.
  intros Hi. destruct (findIndex_Some _ _ _ Hi) as (t & Ht & Hp & _).
  exists t. repeat split; [done..|]. unfold determineDefaultLayout.
  rewrite Hi, Ht. f_equal. apply (filter_index_delete dimensions i 0).
Qed.

Lemma determineDefaultLayout_Permutation (dimensions : list string) :
  rows (determineDefaultLayout dimensions) ++ columns (determineDefaultLayout dimensions)
    ≡ₚ dimensions.
Proof.
  destruct (findIndex isTimeDim dimensions) as [i|] eqn:Hi.
  - destruct (determineDefaultLayout_time dimensions i Hi) as (t & Ht & _ & ->). simpl.
    symmetry. by apply delete_Permutation.
  - unfold determineDefaultLayout. rewrite Hi.
    destruct (1 <? length dimensions)%nat; simpl; [|done].
    by rewrite take_drop.
Qed.

(** X4: [determineDefaultLayout] always partitions the dimensions: rows and
    columns together hold every dimension exactly once. With a time-like
    dimension, the first such dimension is alone in the rows and the others
    follow in the columns in their order; without one and with at least two
    dimensions, the last dimension is alone in the columns. *)
Theorem determineDefaultLayout_partition (dimensions : list string) :
  rows (determineDefaultLayout dimensions) ++ columns (determineDefaultLayout dimensions)
    ≡ₚ dimensions
  /\ (forall i, findIndex isTimeDim dimensions = Some i ->
        exists timeDim, dimensions !! i = Some timeDim /\ isTimeDim timeDim = true
          /\ determineDefaultLayout dimensions = Layout [timeDim] (delete i dimensions))
  /\ (findIndex isTimeDim dimensions = None -> (1 < length dimensions)%nat ->
        length (columns (determineDefaultLayout dimensions)) = 1%nat
        /\ rows (determineDefaultLayout dimensions)
           ++ columns (determineDefaultLayout dimensions) = dimensions)
  /\ (findIndex isTimeDim dimensions = None -> (length dimensions <= 1)%nat ->
        determineDefaultLayout dimensions = Layout [] dimensions).
Proof.
  split; [apply determineDefaultLayout_Permutation|].
  split; [apply determineDefaultLayout_time|split].
  - intros Hnone Hlen. unfold determineDefaultLayout. rewrite Hnone.
    rewrite (proj2 (Nat.ltb_lt _ _) Hlen). simpl.
    rewrite take_drop, length_drop. split; [lia|done].
  - intros Hnone Hlen. unfold determineDefaultLayout. rewrite Hnone.
    destruct (1 <? length dimensions)%nat eqn:E; [|done].
    apply Nat.ltb_lt in E. lia.
Qed.

Lemma determineDefaultLayout_partition_witness :
  exists timeDim, ["Kjonn"; "Tid"; "ContentsCode"] !! 1%nat = Some timeDim
    /\ isTimeDim timeDim = true
    /\ determineDefaultLayout ["Kjonn"; "Tid"; "ContentsCode"]
       = Layout [timeDim] (delete 1%nat ["Kjonn"; "Tid"; "ContentsCode"]).
Proof.
  apply (proj1 (proj2 (determineDefaultLayout_partition ["Kjonn"; "Tid"; "ContentsCode"]))).
  reflexivity.
Defined.

(** A proposal that partitions the dimensions and is not empty is installed. *)
Lemma applyRotation_accepts (v : tableView) (data : dataset) (newRows newCols : list string) :
  currentData v = Some data ->
  newRows ++ newCols ≡ₚ data_id data -> newRows ++ newCols <> [] ->
  applyRotation v (Overlay (Some newRows) (Some newCols))
  = Returns (TableView (currentData v) (Layout newRows newCols)
               (view_errors v) false (S (displayed v))).
Proof.
  destruct v as [cd lay errs dlg n]. simpl. intros -> Hperm Hne.
  unfold applyRotation. simpl.
  rewrite bool_decide_eq_true_2 by by apply sort_strings_eq_iff. simpl.
  destruct newRows as [|r rs]; [|done].
  destruct newCols as [|c cs]; [by destruct Hne|]. by simpl.
Qed.

Lemma applyPreset_zones (data : dataset) (preset : string) (dimensions : list string)
    (currentRows currentCols : list string) :
  exists newRows newCols,
    applyPreset (Some data) preset dimensions
                (Overlay (Some currentRows) (Some currentCols))
    = Overlay (Some newRows) (Some newCols)
    /\ (preset = "default" \/ preset = "all-rows" \/ preset = "all-cols" ->
        newRows ++ newCols ≡ₚ dimensions)
    /\ (preset = "transpose" -> newRows = currentCols /\ newCols = currentRows).
Proof.
  unfold applyPreset. simpl.
  destruct (decide (preset = "default")) as [->|Hd].
  { eexists _, _. split; [done|]. split; [|done]. intros _.
    apply determineDefaultLayout_Permutation. }
  destruct (decide (preset = "transpose")) as [->|Ht].
  { eexists _, _. split; [done|]. split; [|done].
    intros [?|[?|?]]; discriminate. }
  destruct (decide (preset = "all-rows")) as [->|Hr].
  { eexists _, _. split; [done|]. split; [|done]. intros _. by rewrite app_nil_r. }
  destruct (decide (preset = "all-cols")) as [->|Hc].
  { eexists _, _. split; [done|]. split; [|done]. by intros _. }
  eexists _, _. split; [done|]. split; [|done]. intros [?|[?|?]]; done.
Qed.

(** X5: a preset never produces a layout that [applyRotation] refuses. On a
    cube with at least one dimension, after the presets "default",
    "all-rows" and "all-cols" (applied to the cube's dimensions) the Apply
    button installs the preset's lists as the layout, closes the dialog and
    redraws, without error. *)
Theorem applyPreset_accepted (v : tableView) (data : dataset) (preset : string)
    (currentRows currentCols : list string) :
  currentData v = Some data -> data_id data <> [] ->
  preset = "default" \/ preset = "all-rows" \/ preset = "all-cols" ->
  exists newRows newCols,
    applyPreset (currentData v) preset (data_id data)
                (Overlay (Some currentRows) (Some currentCols))
    = Overlay (Some newRows) (Some newCols)
    /\ newRows ++ newCols ≡ₚ data_id data
    /\ applyRotation v (Overlay (Some newRows) (Some newCols))
       = Returns (TableView (currentData v) (Layout newRows newCols)
                    (view_errors v) false (S (displayed v))).
Proof.
  intros Hdata Hne Hpreset. rewrite Hdata.
  destruct (applyPreset_zones data preset (data_id data) currentRows currentCols)
    as (newRows & newCols & Heq & Hperm & _).
  exists newRows, newCols. specialize (Hperm Hpreset).
  split; [done|]. split; [done|].
  rewrite <- Hdata. apply (applyRotation_accepts v data); [done..|].
  intros Hnil. rewrite Hnil in Hperm. apply Permutation_nil in Hperm. done.
Qed.

Lemma applyPreset_accepted_witness :
  exists newRows newCols,
    applyPreset (Some kjonnTid) "default" ["Kjonn"; "Tid"]
                (Overlay (Some ["Kjonn"]) (Some ["Tid"]))
    = Overlay (Some newRows) (Some newCols)
    /\ newRows ++ newCols ≡ₚ ["Kjonn"; "Tid"]
    /\ applyRotation kjonnTidView (Overlay (Some newRows) (Some newCols))
       = Returns (TableView (Some kjonnTid) (Layout newRows newCols) [] false 2).
Proof.
  apply (applyPreset_accepted kjonnTidView kjonnTid "default" ["Kjonn"] ["Tid"]).
  - reflexivity.
  - discriminate.
  - by left.
Defined.

(** X6: the transpose preset swaps the two zones, so applying it twice gives
    the zones back; and when [applyRotation] installs a proposal it also
    installs the transposed one, as the transposed layout. *)
Theorem applyPreset_transpose (v : tableView) (data : dataset)
    (dimensions currentRows currentCols : list string) :
  currentData v = Some data ->
  applyPreset (currentData v) "transpose" dimensions
              (Overlay (Some currentRows) (Some currentCols))
  = Overlay (Some currentCols) (Some currentRows)
  /\ applyPreset (currentData v) "transpose" dimensions
       (applyPreset (currentData v) "transpose" dimensions
          (Overlay (Some currentRows) (Some currentCols)))
     = Overlay (Some currentRows) (Some currentCols)
  /\ (applyRotation v (Overlay (Some currentRows) (Some currentCols))
      = Returns (TableView (currentData v) (Layout currentRows currentCols)
                   (view_errors v) false (S (displayed v))) ->
      applyRotation v (Overlay (Some currentCols) (Some currentRows))
      = Returns (TableView (currentData v) (Layout currentCols currentRows)
                   (view_errors v) false (S (displayed v)))).
Proof.
  intros Hdata. rewrite Hdata. split; [done|]. split; [done|].
  destruct v as [cd lay errs dlg n]. simpl in *. subst cd.
  unfold applyRotation. simpl.
  assert (Hswap : sort_strings (currentCols ++ currentRows)
                  = sort_strings (currentRows ++ currentCols)).
  { apply sort_strings_eq_iff. apply Permutation_app_comm. }
  assert (Herr : forall m, errs ++ [m] <> errs).
  { intros m H. apply (f_equal length) in H. rewrite length_app in H. simpl in H. lia. }
  rewrite Hswap.
  destruct (bool_decide (sort_strings (currentRows ++ currentCols)
                         = sort_strings (data_id data))); simpl.
  - rewrite (andb_comm (bool_decide (currentCols = []))).
    destruct (bool_decide (currentRows = []) && bool_decide (currentCols = [])); [|done].
    unfold view_showError. simpl. intros Heq.
    apply (f_equal (fun r => match r with Returns x => view_errors x | _ => [] end)) in Heq.
    by apply Herr in Heq.
  - unfold view_showError. simpl. intros Heq.
    apply (f_equal (fun r => match r with Returns x => view_errors x | _ => [] end)) in Heq.
    by apply Herr in Heq.
Qed.

Lemma applyPreset_transpose_witness :
  applyPreset (Some kjonnTid) "transpose" ["Kjonn"; "Tid"]
    (applyPreset (Some kjonnTid) "transpose" ["Kjonn"; "Tid"]
       (Overlay (Some ["Kjonn"]) (Some ["Tid"])))
  = Overlay (Some ["Kjonn"]) (Some ["Tid"]).
Proof.
  apply (proj1 (proj2 (applyPreset_transpose kjonnTidView kjonnTid ["Kjonn"; "Tid"]
                         ["Kjonn"] ["Tid"] eq_refl))).
Defined.

(** ** Codelists *)

Lemma three_way_Permutation {A : Type} (p q : A -> bool) (l : list A) :
  (forall x, p x = true -> q x = false) ->
  List.filter p l ++ List.filter (fun x => negb (p x) && negb (q x)) l ++ List.filter q l
    ≡ₚ l.
Proof.
  intros Hpq. induction l as [|x l IH]; [done|]. simpl.
  destruct (p x) eqn:Hp; simpl.
  - rewrite (Hpq x Hp). simpl. by rewrite IH.
  - destruct (q x) eqn:Hq; simpl.
    + rewrite app_assoc, <- Permutation_middle, <- app_assoc. by rewrite IH.
    + rewrite <- Permutation_middle. by rewrite IH.
Qed.

(** X7: [sortCodelistOptions] loses and repeats no codelist: its result is a
    rearrangement of the input, made of the "vs_" codelists, then those that
    are neither, then the "agg_" ones, each group in its input order. *)
Theorem sortCodelistOptions_rearranges (codelists : list codelistRef) :
  sortCodelistOptions codelists ≡ₚ codelists
  /\ exists vs other agg,
       sortCodelistOptions codelists = vs ++ other ++ agg
       /\ Forall (fun cl => idStartsWith "vs_" cl = true) vs
       /\ Forall (fun cl => idStartsWith "vs_" cl = false
                            /\ idStartsWith "agg_" cl = false) other
       /\ Forall (fun cl => idStartsWith "agg_" cl = true) agg
       /\ sublist vs codelists /\ sublist other codelists /\ sublist agg codelists.
Proof.
  assert (Hsub : forall (p : codelistRef -> bool) l, sublist (List.filter p l) l).
  { intros p l. induction l as [|x l IH]; simpl; [constructor|].
    destruct (p x); by constructor. }
  split.
  - apply three_way_Permutation. intros cl. unfold idStartsWith.
    destruct (toLowerCase (ref_id cl)) as [|a s]; [done|]. cbn [String.prefix].
    destruct (Ascii.ascii_dec "v" a) as [<-|]; [|done]. by intros _.
  - eexists _, _, _. split; [reflexivity|].
    repeat split; try apply Hsub; apply Forall_forall; intros cl Hcl;
      apply list_elem_of_In, filter_In in Hcl as [_ Hcl]; try done.
    by apply andb_prop in Hcl as [H1%negb_true_iff H2%negb_true_iff].
Qed.

Lemma add_codes_elem (vm acc : list string) (y : string) :
  y ∈ foldl (fun s c => if decide (c = "") then s else set_add c s) acc vm
  <-> y ∈ acc \/ (y <> "" /\ y ∈ vm).
Proof.
  revert acc. induction vm as [|c vm IH]; intros acc; simpl.
  - split; [by left|]. intros [|[_ H]]; [done|]. by apply elem_of_nil in H.
  - rewrite IH. destruct (decide (c = "")) as [->|Hc].
    + rewrite elem_of_cons. split; [tauto|]. intros [|[Hy [->|]]]; tauto.
    + rewrite set_add_elem, elem_of_cons. split; [|tauto].
      intros [[->|]|]; tauto.
Qed.

Lemma add_codes_NoDup (vm acc : list string) :
  NoDup acc -> NoDup (foldl (fun s c => if decide (c = "") then s else set_add c s) acc vm).
Proof.
  revert acc. induction vm as [|c vm IH]; intros acc Hacc; simpl; [done|].
  apply IH. destruct (decide (c = "")); [done|]. by apply set_add_NoDup.
Qed.

Lemma extractStep_wellFormed (acc : extracted) (item : rawCodelistItem) :
  wellFormedExtract acc -> wellFormedExtract (extractStep acc item).
Proof.
  intros (Hnd & Hmem & Hvals & Hagg). unfold extractStep.
  destruct (truthy (raw_code item)) as [code|] eqn:Hcode; [|done].
  assert (Hne : code <> "").
  { unfold truthy in Hcode. destruct (raw_code item) as [s|]; [|done].
    destruct (decide (s = "")); [done|]. by injection Hcode as <-. }
  set (valueMap := match raw_valueMap item with
                   | Some (c :: rest) => c :: rest
                   | _ => [code]
                   end).
  assert (Hvm : valueMap <> []).
  { unfold valueMap. by destruct (raw_valueMap item) as [[|]|]. }
  split; [|split; [|split]]; simpl.
  - by apply add_codes_NoDup.
  - intros c. rewrite add_codes_elem, Hmem. split.
    + intros [[Hc (v & Hv & Hcv)]|[Hc Hcv]].
      * split; [done|]. exists v. split; [apply elem_of_app; by left|done].
      * split; [done|]. eexists.
        split; [apply elem_of_app; right; by apply list_elem_of_singleton|done].
    + intros [Hc (v & Hv & Hcv)]. apply elem_of_app in Hv as [Hv|Hv].
      * left. split; [done|]. by exists v.
      * apply list_elem_of_singleton in Hv. subst v. by right.
  - apply Forall_app. split; [done|]. by repeat constructor.
  - split.
    + intros H. apply orb_false_elim in H as [H1 H2].
      apply Forall_app. split; [by apply Hagg|].
      constructor; [|constructor]. simpl.
      apply negb_false_iff in H2. by apply bool_decide_eq_true in H2.
    + intros H. apply Forall_app in H as [H1 H2]. apply Forall_inv in H2. simpl in H2.
      apply orb_false_intro; [by apply Hagg|].
      apply negb_false_iff. by apply bool_decide_eq_true.
Qed.

(** X8: whatever the codelist resource, [extractCodelistCodes] returns a
    duplicate-free set of original codes that holds exactly the non-empty
    codes of the value maps of the kept entries; every kept entry has a
    non-empty code and a non-empty value map (its own code when the resource
    gives none); and the codelist is flagged as aggregated exactly when some
    entry is not mapped to just its own code. An entry without code is
    dropped; a resource without [values] gives the empty result. *)
Theorem extractCodelistCodes_wellFormed (data : codelistData) :
  wellFormedExtract (extractCodelistCodes data)
  /\ (length (ex_values (extractCodelistCodes data))
      <= length (default [] (cd_values data)))%nat
  /\ (cd_values data = None -> extractCodelistCodes data = Extracted false [] []).
Proof.
  assert (Hinit : wellFormedExtract (Extracted false [] [])).
  { split; [constructor|split; [|split]]; simpl.
    - intros c. split; [by intros ?%elem_of_nil|].
      intros [_ (v & Hv & _)]. by apply elem_of_nil in Hv.
    - constructor.
    - split; [intros; constructor|done]. }
  unfold extractCodelistCodes. destruct (cd_values data) as [vals|]; simpl; [|done].
  split; [|split; [|done]].
  - revert Hinit. generalize (Extracted false [] []).
    induction vals as [|item vals IH]; intros acc Hacc; simpl; [done|].
    apply IH. by apply extractStep_wellFormed.
  - assert (H : forall acc,
              (length (ex_values (foldl extractStep acc vals))
               <= length (ex_values acc) + length vals)%nat).
    { induction vals as [|item vals IH]; intros acc; simpl; [lia|].
      etrans; [apply IH|]. unfold extractStep.
      destruct (truthy (raw_code item)); simpl; [rewrite length_app; simpl|]; lia. }
    apply (H (Extracted false [] [])).
Qed.

Example extractCodelistCodes_mixed :
  extractCodelistCodes mixedCodelist
  = Extracted true
      [CodelistValue "00-19" "0-19 aar" ["00-19"];
       CodelistValue "G2" "G2" ["20-39"; "40-66"; "00-19"]]
      ["00-19"; "20-39"; "40-66"].
Proof. reflexivity. Qed.

Lemma extractCodelistCodes_wellFormed_witness :
  extractCodelistCodes (CodelistData (Some "vs_Alder") false None) = Extracted false [] [].
Proof.
  apply (proj2 (proj2 (extractCodelistCodes_wellFormed
                         (CodelistData (Some "vs_Alder") false None)))).
  reflexivity.
Defined.

Lemma renderCodelistValues_unselected (codelistValues : list codelistValue) :
  List.filter selected (renderCodelistValues codelistValues) = [].
Proof. induction codelistValues as [|v vs IH]; [done|]. simpl. exact IH. Qed.

(** The handler on a fetched codelist: disable, enable, store, render,
    reset. *)
Lemma codelistChange_fetched (st : session) (k : nat) (c : card) (codelistId : string)
    (data : codelistData) (dim : dimension) :
  cards st !! k = Some c ->
  chosenCodelist st k = Some codelistId -> codelistId <> "" ->
  metaDimension st (data_dimension c) = Some dim ->
  codelistChange st k (Some data) =
  let ex := extractCodelistCodes data in
  let eff := ext_elimination dim || cd_elimination data in
  let st2 := on_card k (set_disabled false) (on_card k (set_disabled true) st) in
  on_card k resetSelection
    (on_card k
       (fun c => updateEliminationBadge eff
                   (set_items (renderCodelistValues (ex_values ex)) c))
       (with_codelist st2 (data_dimension c)
          (Some (CodelistInfo codelistId eff (ex_isAggregated ex) (ex_values ex)
                   (ex_originalCodes ex)))
          (<[data_dimension c := codelistId]> (activeCodelistIds st2)))).
Proof.
  intros Hc Hid Hne Hdim. unfold codelistChange. rewrite Hid, decide_False by done.
  unfold codelistChange_end, codelistChange_begin.
  rewrite on_card_lookup, decide_True, Hc by done. simpl.
  change (metaDimension (on_card k (set_disabled false) (on_card k (set_disabled true) st))
            (data_dimension c))
    with (metaDimension st (data_dimension c)).
  by rewrite Hdim.
Qed.

(** X9: when the chosen codelist is fetched, it becomes the active codelist
    of the dimension with the effective elimination flag "dimension's flag
    or codelist's flag", so an optional dimension never becomes mandatory;
    the card shows the codelist's entries, none selected, in specific mode;
    no other dimension or card changes and no error is shown. Right after
    the switch the dimension contributes nothing to the query if it is
    optional and the empty array if it is mandatory, and its true count is
    the number of original codes of the codelist. *)
Theorem codelistChange_success (st : session) (k : nat) (c : card) (cont : container)
    (codelistId : string) (data : codelistData) (dim : dimension) :
  cards st !! k = Some c -> value_list_container c = Some cont ->
  chosenCodelist st k = Some codelistId -> codelistId <> "" ->
  metaDimension st (data_dimension c) = Some dim ->
  let st' := codelistChange st k (Some data) in
  let ex := extractCodelistCodes data in
  let eff := ext_elimination dim || cd_elimination data in
  activeCodelist st' (data_dimension c)
    = Some (CodelistInfo codelistId eff (ex_isAggregated ex) (ex_values ex)
              (ex_originalCodes ex))
  /\ (forall d, d <> data_dimension c -> activeCodelist st' d = activeCodelist st d)
  /\ activeCodelistIds st' = <[data_dimension c := codelistId]> (activeCodelistIds st)
  /\ shown_errors st' = shown_errors st
  /\ (forall j, j <> k -> cards st' !! j = cards st !! j)
  /\ (ext_elimination dim = true -> eff = true)
  /\ getTrueDimensionValueCount st' (data_dimension c)
     = Z.of_nat (length (ex_originalCodes ex))
  /\ exists c',
       cards st' !! k = Some c'
       /\ data_dimension c' = data_dimension c
       /\ data_elimination c' = eff
       /\ value_list_container c'
          = Some (Container "specific" (renderCodelistValues (ex_values ex)))
       /\ cardSelection st' c' = (if eff then None else Some (QCodes [])).
Proof.
  intros Hc Hcont Hid Hne Hdim st' ex eff. subst st'.
  rewrite (codelistChange_fetched st k c codelistId data dim Hc Hid Hne Hdim).
  cbv zeta. fold ex. fold eff.
  assert (Hact : forall s info ids,
            activeCodelist (on_card k resetSelection
              (on_card k (fun c0 => updateEliminationBadge eff
                            (set_items (renderCodelistValues (ex_values ex)) c0))
                 (with_codelist s (data_dimension c) (Some info) ids)))
              (data_dimension c) = Some info).
  { intros s info ids. unfold activeCodelist. simpl. by rewrite lookup_insert_eq. }
  split; [apply Hact|]. split.
  { intros d Hd. unfold activeCodelist. simpl. by rewrite lookup_insert_ne. }
  split; [done|]. split; [done|]. split.
  { intros j Hj. rewrite !on_card_lookup, !decide_False by done.
    change (cards (with_codelist ?s ?d ?i ?ids)) with (cards s).
    by rewrite !on_card_lookup, !decide_False. }
  split; [intros H; unfold eff; by rewrite H|]. split.
  { unfold getTrueDimensionValueCount. by rewrite Hact. }
  eexists. split.
  { rewrite !on_card_lookup, !decide_True by done.
    change (cards (with_codelist ?s ?d ?i ?ids)) with (cards s).
    rewrite !on_card_lookup, !decide_True, Hc by done. simpl. reflexivity. }
  unfold set_items, resetSelection, set_disabled, updateEliminationBadge. simpl.
  rewrite Hcont. simpl. split; [done|]. split; [done|]. split.
  { f_equal. f_equal. unfold renderCodelistValues. rewrite map_map.
    by apply map_ext. }
  unfold cardSelection. simpl.
  unfold specificValues, selectedValues. simpl. rewrite Hact.
  assert (Hsel : selectedItems
            (Container "specific"
               (map (fun it => ValueItem (data_code it) (data_valuemap it) false)
                    (renderCodelistValues (ex_values ex)))) = []).
  { unfold selectedItems. simpl. clear.
    induction (renderCodelistValues (ex_values ex)) as [|v vs IH]; [done|]. exact IH. }
  rewrite Hsel. simpl.
  destruct (isTimeDim (data_dimension c)); [|by destruct eff].
  match goal with |- context [categoryIndex ?s ?d] => destruct (categoryIndex s d) end;
    by destruct eff.
Qed.

Lemma codelistChange_success_witness :
  activeCodelist (codelistChange alderSwitching 0 (Some mixedCodelist)) "Alder"
  = Some (CodelistInfo "vs_Alder" true true
            [CodelistValue "00-19" "0-19 aar" ["00-19"];
             CodelistValue "G2" "G2" ["20-39"; "40-66"; "00-19"]]
            ["00-19"; "20-39"; "40-66"]).
Proof.
  destruct (codelistChange_success alderSwitching 0 alderOptionalCard
              (Container "specific"
                 [ValueItem "G1" (JsonArray ["00-19"; "20-39"]) true;
                  ValueItem "G2" (JsonArray ["40-66"; "67+"]) false])
              "vs_Alder" mixedCodelist
              (Dimension
                 (Category [("00-19", "0-19"); ("20-39", "20-39"); ("40-66", "40-66");
                            ("67+", "67+")]
                    (Some (<["00-19" := 0]> (<["20-39" := 1]> (<["40-66" := 2]>
                           (<["67+" := 3]> ∅)))))) false
                 [CodelistRef "vs_Alder" "Alder"; CodelistRef "agg_Alder" "Aldersgrupper"]))
    as [H _].
  - reflexivity.
  - reflexivity.
  - reflexivity.
  - discriminate.
  - reflexivity.
  - exact H.
Defined.

Lemma renderValueList_unselected (st : session) (dimCode : string) (dim : dimension)
    (isTime : bool) :
  List.filter selected (renderValueList st dimCode dim isTime) = [].
Proof.
  unfold renderValueList.
  match goal with |- List.filter _ (map _ ?l) = _ => generalize l end.
  intros l. induction l as [|x l IH]; [done|]. exact IH.
Qed.

(** X10: "Velg fritt" removes the codelist of the dimension and nothing
    else: the dimension has no active codelist and no stored codelist id, its
    card carries the dimension's own elimination flag and the base value
    list in specific mode with nothing selected, and its true count is the
    number of base categories again. *)
Theorem codelistChange_free_restores (st : session) (k : nat) (c : card)
    (cont : container) (dim : dimension) :
  cards st !! k = Some c -> value_list_container c = Some cont ->
  metaDimension st (data_dimension c) = Some dim ->
  let st' := codelistChange_free st k in
  activeCodelist st' (data_dimension c) = None
  /\ activeCodelistIds st' = delete (data_dimension c) (activeCodelistIds st)
  /\ (forall d, d <> data_dimension c -> activeCodelist st' d = activeCodelist st d)
  /\ (forall j, j <> k -> cards st' !! j = cards st !! j)
  /\ getTrueDimensionValueCount st' (data_dimension c)
     = Z.of_nat (length (cat_label (dim_category dim)))
  /\ exists c',
       cards st' !! k = Some c'
       /\ data_dimension c' = data_dimension c
       /\ data_elimination c' = ext_elimination dim
       /\ selectedItems <$> value_list_container c' = Some []
       /\ (data_mode <$> value_list_container c') = Some "specific"
       /\ (items <$> value_list_container c')
          = Some (renderValueList st (data_dimension c) dim
                    (isTimeDim (data_dimension c))).
Proof.
  intros Hc Hcont Hdim st'. subst st'. unfold codelistChange_free. rewrite Hc.
  change (metaDimension (with_codelist st ?d ?i ?ids) ?x) with (metaDimension st x).
  rewrite Hdim.
  assert (Hact : forall f,
            activeCodelist (on_card k f (with_codelist st (data_dimension c) None
                              (delete (data_dimension c) (activeCodelistIds st))))
              (data_dimension c) = None).
  { intros f. unfold activeCodelist. simpl. by rewrite lookup_insert_eq. }
  split; [apply Hact|]. split; [done|]. split.
  { intros d Hd. unfold activeCodelist. simpl. by rewrite lookup_insert_ne. }
  split.
  { intros j Hj. by rewrite on_card_lookup, decide_False. }
  split.
  { unfold getTrueDimensionValueCount. rewrite Hact.
    unfold metaDimension in Hdim. simpl.
    destruct (tableMetadata st) as [md|]; [|done]. simpl in Hdim. by rewrite Hdim. }
  eexists. split.
  { rewrite on_card_lookup, decide_True by done.
    change (cards (with_codelist ?s ?d ?i ?ids)) with (cards s).
    rewrite Hc. simpl. reflexivity. }
  unfold set_items, resetSelection, updateEliminationBadge. simpl.
  rewrite Hcont. simpl. split; [done|]. split; [done|]. split.
  { f_equal. unfold selectedItems. simpl.
    match goal with |- List.filter _ (map _ ?l) = _ => generalize l end.
    intros l. induction l as [|x l IH]; [done|]. exact IH. }
  split; [done|]. f_equal. unfold renderValueList. simpl.
  rewrite map_map. by apply map_ext.
Qed.

Lemma codelistChange_free_restores_witness :
  activeCodelist (codelistChange_free alderSwitching 0) "Alder" = None
  /\ getTrueDimensionValueCount (codelistChange_free alderSwitching 0) "Alder" = 4.
Proof.
  destruct (codelistChange_free_restores alderSwitching 0 alderOptionalCard
              (Container "specific"
                 [ValueItem "G1" (JsonArray ["00-19"; "20-39"]) true;
                  ValueItem "G2" (JsonArray ["40-66"; "67+"]) false])
              (Dimension
                 (Category [("00-19", "0-19"); ("20-39", "20-39"); ("40-66", "40-66");
                            ("67+", "67+")]
                    (Some (<["00-19" := 0]> (<["20-39" := 1]> (<["40-66" := 2]>
                           (<["67+" := 3]> ∅)))))) false
                 [CodelistRef "vs_Alder" "Alder"; CodelistRef "agg_Alder" "Aldersgrupper"]))
    as (H1 & _ & _ & _ & H2 & _).
  - reflexivity.
  - reflexivity.
  - reflexivity.
  - split; [exact H1|exact H2].
Defined.

(** X11: choosing a codelist leaves nothing behind. After a codelist has
    been fetched and applied, "Velg fritt" gives exactly the session that
    "Velg fritt" gives without the codelist ever having been chosen. *)
Theorem codelistChange_free_undoes (st : session) (k : nat) (c : card)
    (codelistId : string) (data : codelistData) (dim : dimension) :
  cards st !! k = Some c ->
  codelist_dropdown c = Some (Dropdown codelistId false) -> codelistId <> "" ->
  metaDimension st (data_dimension c) = Some dim ->
  codelistChange_free (codelistChange st k (Some data)) k = codelistChange_free st k.
Proof.
  intros Hc Hdd Hne Hdim.
  assert (Hid : chosenCodelist st k = Some codelistId).
  { unfold chosenCodelist. rewrite Hc. simpl. by rewrite Hdd. }
  rewrite (codelistChange_fetched st k c codelistId data dim Hc Hid Hne Hdim).
  cbv zeta. unfold codelistChange_free.
  rewrite !on_card_lookup, !decide_True by done.
  change (cards (with_codelist ?s ?d ?i ?ids)) with (cards s).
  rewrite !on_card_lookup, !decide_True, Hc by done. simpl.
  change (metaDimension (with_codelist ?s ?d ?i ?ids) ?x) with (metaDimension s x).
  change (metaDimension (on_card ?j ?f ?s) ?x) with (metaDimension s x).
  assert (Hdim' : forall f, data_dimension (resetSelection (updateEliminationBadge
             (ext_elimination dim || cd_elimination data)
             (set_items f (set_disabled false (set_disabled true c)))))
           = data_dimension c).
  { intros f. clear. by destruct c as [d e [cont|] tn dd]. }
  rewrite Hdim'.
  change (metaDimension (with_codelist ?s ?d ?i ?ids) ?x) with (metaDimension s x).
  change (metaDimension (on_card ?j ?f ?s) ?x) with (metaDimension s x).
  change (metaDimension (with_codelist ?s ?d ?i ?ids) ?x) with (metaDimension s x).
  change (metaDimension (on_card ?j ?f ?s) ?x) with (metaDimension s x).
  change (metaDimension (on_card ?j ?f ?s) ?x) with (metaDimension s x).
  rewrite Hdim.
  destruct st as [md acl dvo ids cs ccd errs]. simpl in *.
  unfold on_card, with_cards, with_codelist. simpl.
  f_equal.
  - by rewrite insert_insert_eq.
  - by rewrite delete_insert_eq.
  - apply list_eq. intros j. destruct (decide (j = k)) as [->|Hj].
    + rewrite !list_lookup_alter_eq, Hc. simpl. f_equal.
      unfold resetSelection, set_items, updateEliminationBadge, set_disabled. simpl.
      rewrite Hdd. simpl. destruct c as [d e [cont|] tn dd]; simpl in *; by subst dd.
    + by rewrite !list_lookup_alter_ne.
Qed.

Lemma codelistChange_free_undoes_witness :
  codelistChange_free (codelistChange alderSwitching 0 (Some mixedCodelist)) 0
  = codelistChange_free alderSwitching 0.
Proof.
  apply (codelistChange_free_undoes alderSwitching 0 alderOptionalCard "vs_Alder"
           mixedCodelist
           (Dimension
              (Category [("00-19", "0-19"); ("20-39", "20-39"); ("40-66", "40-66");
                         ("67+", "67+")]
                 (Some (<["00-19" := 0]> (<["20-39" := 1]> (<["40-66" := 2]>
                        (<["67+" := 3]> ∅)))))) false
              [CodelistRef "vs_Alder" "Alder"; CodelistRef "agg_Alder" "Aldersgrupper"])).
  - reflexivity.
  - reflexivity.
  - discriminate.
  - reflexivity.
Defined.

(** ** Value lists *)

Lemma remove_code_Permutation (code : string) (remaining : list string) :
  NoDup remaining -> code ∈ remaining ->
  code :: List.filter (fun r => negb (bool_decide (r = code))) remaining ≡ₚ remaining.
Proof.
  induction 1 as [|x rest Hx Hnd IH]; intros Hin; [by apply elem_of_nil in Hin|].
  simpl. destruct (decide (x = code)) as [->|Hne].
  - rewrite bool_decide_eq_true_2 by done. simpl. constructor.
    clear IH Hin. induction rest as [|y rest IH]; [done|].
    apply not_elem_of_cons in Hx as [Hy Hx]. apply NoDup_cons in Hnd as [_ Hnd].
    simpl. rewrite bool_decide_eq_false_2 by done. simpl. f_equiv. by apply IH.
  - rewrite bool_decide_eq_false_2 by done. simpl.
    apply elem_of_cons in Hin as [->|Hin]; [done|].
    rewrite Permutation_swap. constructor. by apply IH.
Qed.

(** The loop of [preferredOrder] keeps the codes: what is ordered and what
    remains are together a rearrangement of them. *)
Lemma preferredOrder_loop (codes preferred ordered remaining : list string) :
  NoDup (ordered ++ remaining) -> ordered ++ remaining ≡ₚ codes ->
  let '(ordered', remaining') :=
    foldl (fun '(ordered, remaining) code =>
             if decide (code ∈ remaining)
             then (ordered ++ [code],
                   List.filter (fun r => negb (bool_decide (r = code))) remaining)
             else (ordered, remaining))
          (ordered, remaining) preferred in
  NoDup (ordered' ++ remaining') /\ ordered' ++ remaining' ≡ₚ codes.
Proof.
  revert ordered remaining. induction preferred as [|code rest IH];
    intros ordered remaining Hnd Hperm; simpl; [done|].
  destruct (decide (code ∈ remaining)) as [Hin|Hin]; [|by apply IH].
  assert (Hstep : (ordered ++ [code])
                  ++ List.filter (fun r => negb (bool_decide (r = code))) remaining
                  ≡ₚ ordered ++ remaining).
  { rewrite <- app_assoc. simpl. f_equiv. apply remove_code_Permutation; [|done].
    by apply NoDup_app in Hnd as (_ & _ & ?). }
  apply IH; [by rewrite Hstep|by rewrite Hstep].
Qed.

Lemma preferredOrder_Permutation (codes preferred : list string) :
  NoDup codes -> preferredOrder codes preferred ≡ₚ codes.
Proof.
  intros Hnd. unfold preferredOrder.
  pose proof (preferredOrder_loop codes preferred [] codes Hnd (reflexivity _)) as H.
  destruct (foldl _ ([], codes) preferred) as [ordered remaining].
  destruct H as [Hnd' Hperm]. rewrite <- Hperm at 2. f_equiv.
  apply NoDup_Permutation.
  - apply NoDup_ListNoDup, List.NoDup_filter, NoDup_ListNoDup, Hnd.
  - by apply NoDup_app in Hnd' as (_ & _ & ?).
  - intros x. rewrite list_elem_of_In, filter_In, <- !list_elem_of_In.
    rewrite bool_decide_eq_true. split; [tauto|]. intros Hx. split; [|done].
    rewrite <- Hperm. apply elem_of_app. by right.
Qed.

(** X12: the value list [renderValueList] writes has at most 500 items,
    none selected and none with a value map; the codes shown are distinct
    codes of the dimension; for a time dimension they are the newest 500
    (the base order reversed); and when the dimension has at most 500
    categories every category is shown exactly once, also under a pre-loaded
    codelist order, whatever that order names. *)
Theorem renderValueList_items (st : session) (dimCode : string) (dim : dimension)
    (isTime : bool) :
  NoDup (map fst (cat_label (dim_category dim))) ->
  (length (renderValueList st dimCode dim isTime) <= 500)%nat
  /\ Forall (fun it => selected it = false /\ data_valuemap it = NoValuemap
                       /\ data_code it ∈ map fst (cat_label (dim_category dim)))
            (renderValueList st dimCode dim isTime)
  /\ NoDup (map data_code (renderValueList st dimCode dim isTime))
  /\ (isTime = true ->
      map data_code (renderValueList st dimCode dim isTime)
      = take 500 (rev (map fst (cat_label (dim_category dim)))))
  /\ ((length (cat_label (dim_category dim)) <= 500)%nat ->
      map data_code (renderValueList st dimCode dim isTime)
        ≡ₚ map fst (cat_label (dim_category dim))).
Proof.
  intros Hnd. unfold renderValueList.
  set (codes := map fst (cat_label (dim_category dim))) in *.
  set (shown := if isTime then rev codes
                else match dimensionValueOrder st !! dimCode with
                     | Some preferred => preferredOrder codes preferred
                     | None => codes
                     end).
  assert (Hshown : shown ≡ₚ codes).
  { unfold shown. destruct isTime; [by rewrite <- Permutation_rev|].
    destruct (dimensionValueOrder st !! dimCode); [|done].
    by apply preferredOrder_Permutation. }
  assert (Hcodes : map data_code
                     (map (fun code => ValueItem code NoValuemap false) (take 500 shown))
                   = take 500 shown).
  { rewrite map_map. simpl. apply map_id. }
  rewrite Hcodes. split; [|split; [|split; [|split]]].
  - rewrite length_map, length_take. lia.
  - apply Forall_fmap, Forall_forall. intros code Hcode. simpl.
    repeat split. rewrite <- Hshown. by eapply subseteq_take.
  - apply (NoDup_Permutation_proper _ _ (Permutation_sym Hshown)) in Hnd as Hnd'.
    rewrite <- (take_drop 500 shown) in Hnd'. by apply NoDup_app in Hnd' as [? _].
  - intros ->. done.
  - intros Hlen. rewrite firstn_all2; [done|].
    rewrite (Permutation_length Hshown). unfold codes. by rewrite length_map.
Qed.

Lemma renderValueList_items_witness :
  map data_code
      (renderValueList kjonnPreferred "Kjonn"
         (Dimension (Category [("0", "Begge"); ("1", "Menn"); ("2", "Kvinner")]
                       (Some (<["0" := 0]> (<["1" := 1]> (<["2" := 2]> ∅)))))
                    false [CodelistRef "vs_Kjonn" "Kjonn"]) false)
    ≡ₚ ["0"; "1"; "2"].
Proof.
  apply (renderValueList_items kjonnPreferred "Kjonn"
           (Dimension (Category [("0", "Begge"); ("1", "Menn"); ("2", "Kvinner")]
                         (Some (<["0" := 0]> (<["1" := 1]> (<["2" := 2]> ∅)))))
                      false [CodelistRef "vs_Kjonn" "Kjonn"]) false).
  - simpl. by apply (bool_decide_unpack _).
  - simpl. lia.
Defined.

Example renderValueList_preferred :
  map data_code
      (renderValueList kjonnPreferred "Kjonn"
         (Dimension (Category [("0", "Begge"); ("1", "Menn"); ("2", "Kvinner")]
                       (Some (<["0" := 0]> (<["1" := 1]> (<["2" := 2]> ∅)))))
                    false [CodelistRef "vs_Kjonn" "Kjonn"]) false)
  = ["2"; "1"; "0"].
Proof. reflexivity. Qed.

(** ** Clicks on the value list *)

Lemma filter_selected_none (its : list valueItem) :
  List.filter selected (map (setSelected false) its) = [].
Proof. induction its as [|it its IH]; [done|]. exact IH. Qed.

Lemma filter_selected_one (its : list valueItem) (i : nat) (it : valueItem) :
  its !! i = Some it ->
  List.filter selected (alter (setSelected true) i (map (setSelected false) its))
  = [setSelected true it].
Proof.
  revert i. induction its as [|x its IH]; intros i Hi; [done|].
  destruct i as [|i]; simpl in *.
  - injection Hi as ->. by rewrite filter_selected_none.
  - by apply IH.
Qed.

(** X13: a plain click selects the clicked item and nothing else, and puts
    the list in specific mode whatever the mode was; with one card per
    dimension, no codelist and a dimension that is not time-like, the query
    then holds exactly the clicked code for the dimension. *)
Theorem plain_click_selects_one (st : session) (k : nat) (c : card) (cont : container)
    (last : option nat) (clicked : nat) (it : valueItem) :
  cards st !! k = Some c -> value_list_container c = Some cont ->
  items cont !! clicked = Some it ->
  let cont' := fst (clickItem cont last clicked (ClickEvent false false)) in
  let c' := Card (data_dimension c) (data_elimination c) (Some cont')
                 (top_n_input c) (codelist_dropdown c) in
  let st' := with_cards st (<[k := c']> (cards st)) in
  data_mode cont' = "specific"
  /\ selectedItems cont' = [setSelected true it]
  /\ length (items cont') = length (items cont)
  /\ snd (clickItem cont last clicked (ClickEvent false false)) = Some clicked
  /\ (NoDup (map data_dimension (cards st)) ->
      activeCodelist st (data_dimension c) = None ->
      isTimeDim (data_dimension c) = false ->
      getVariableSelection st' !! data_dimension c = Some (QCodes [data_code it])).
Proof.
  intros Hc Hcont Hit cont' c' st'.
  assert (Hlt : (clicked <? length (items cont))%nat = true).
  { apply Nat.ltb_lt. by eapply lookup_lt_Some. }
  assert (Hcont' : cont' = Container "specific"
                     (alter (setSelected true) clicked (map (setSelected false) (items cont)))).
  { unfold cont', clickItem. rewrite Hlt. simpl. unfold clickItems. by destruct last. }
  assert (Hsel : selectedItems cont' = [setSelected true it]).
  { rewrite Hcont'. unfold selectedItems. simpl. by apply filter_selected_one. }
  split; [by rewrite Hcont'|]. split; [done|]. split.
  { rewrite Hcont'. simpl. by rewrite length_alter, length_map. }
  split; [unfold clickItem; by rewrite Hlt|].
  intros Hnd Hact Htime.
  assert (Hk : (k < length (cards st))%nat) by by eapply lookup_lt_Some.
  assert (Hdims : map data_dimension (cards st') = map data_dimension (cards st)).
  { unfold st'. simpl. apply list_eq. intros j.
    rewrite !list_lookup_fmap. destruct (decide (j = k)) as [->|Hj].
    - by rewrite list_lookup_insert_eq, Hc.
    - by rewrite list_lookup_insert_ne. }
  assert (Hin : c' ∈ cards st').
  { unfold st'. simpl. eapply list_elem_of_lookup_2. by apply list_lookup_insert_eq. }
  change (data_dimension c) with (data_dimension c').
  rewrite (getVariableSelection_card st' c') by by rewrite ?Hdims.
  unfold cardSelection. simpl. rewrite Hcont'. simpl.
  fold cont'. rewrite <- Hcont'.
  unfold specificValues, selectedValues. simpl.
  change (activeCodelist st' (data_dimension c)) with (activeCodelist st (data_dimension c)).
  rewrite Hact, Htime, Hsel. simpl. by rewrite andb_false_r.
Qed.

Lemma plain_click_selects_one_witness :
  selectedItems (fst (clickItem tidContainer None 1 (ClickEvent false false)))
  = [ValueItem "2022" NoValuemap true].
Proof.
  apply (plain_click_selects_one tidNewestFirst 0 tidCard tidContainer None 1
           (ValueItem "2022" NoValuemap false)); reflexivity.
Defined.

Lemma toggleSelected_involutive (it : valueItem) :
  toggleSelected (toggleSelected it) = it.
Proof. destruct it as [code vm sel]. unfold toggleSelected, setSelected. simpl.
       by rewrite negb_involutive. Qed.

(** X14: a Ctrl-click (or Cmd-click) flips the clicked item only, whatever
    the remembered index; a second Ctrl-click on the same item restores the
    list, so toggling is its own inverse. *)
Theorem ctrl_click_toggles (its : list valueItem) (last : option nat) (clicked : nat)
    (it : valueItem) :
  its !! clicked = Some it ->
  clickItems its last clicked (ClickEvent false true) !! clicked
    = Some (ValueItem (data_code it) (data_valuemap it) (negb (selected it)))
  /\ (forall j, j <> clicked ->
        clickItems its last clicked (ClickEvent false true) !! j = its !! j)
  /\ clickItems (clickItems its last clicked (ClickEvent false true))
                (Some clicked) clicked (ClickEvent false true) = its.
Proof.
  intros Hit.
  assert (Hctrl : forall l lst, clickItems l lst clicked (ClickEvent false true)
                                = alter toggleSelected clicked l).
  { intros l lst. unfold clickItems. by destruct lst. }
  rewrite !Hctrl. split; [|split].
  - by rewrite list_lookup_alter_eq, Hit.
  - intros j Hj. by rewrite list_lookup_alter_ne.
  - rewrite list_alter_alter_eq. apply list_alter_id. intros x. simpl.
    apply toggleSelected_involutive.
Qed.

Lemma ctrl_click_toggles_witness :
  clickItems (clickItems threeItems None 1 (ClickEvent false true))
             (Some 1%nat) 1 (ClickEvent false true) = threeItems.
Proof.
  apply (proj2 (proj2 (ctrl_click_toggles threeItems None 1
                         (ValueItem "b" NoValuemap false) eq_refl))).
Defined.

(** X15: a Shift-click with a remembered index selects the whole range
    between the remembered and the clicked position, both included, in
    either direction; without Ctrl everything outside the range is
    deselected, with Ctrl it is kept. The range is the same whichever end
    was clicked first. *)
Theorem shift_click_selects_range (its : list valueItem) (lastIndex clicked : nat)
    (ctrl : bool) :
  (forall j it, its !! j = Some it ->
     clickItems its (Some lastIndex) clicked (ClickEvent true ctrl) !! j
     = Some (if (Nat.min lastIndex clicked <=? j)%nat && (j <=? Nat.max lastIndex clicked)%nat
             then setSelected true it
             else if ctrl then it else setSelected false it))
  /\ length (clickItems its (Some lastIndex) clicked (ClickEvent true ctrl)) = length its
  /\ clickItems its (Some lastIndex) clicked (ClickEvent true ctrl)
     = clickItems its (Some clicked) lastIndex (ClickEvent true ctrl)
  /\ (ctrl = false ->
      forall j it', clickItems its (Some lastIndex) clicked (ClickEvent true ctrl) !! j
                    = Some it' ->
        (selected it' = true <->
         (Nat.min lastIndex clicked <= j <= Nat.max lastIndex clicked)%nat)).
Proof.
  assert (Hlook : forall j it, its !! j = Some it ->
     clickItems its (Some lastIndex) clicked (ClickEvent true ctrl) !! j
     = Some (if (Nat.min lastIndex clicked <=? j)%nat && (j <=? Nat.max lastIndex clicked)%nat
             then setSelected true it
             else if ctrl then it else setSelected false it)).
  { intros j it Hj. unfold clickItems. simpl. rewrite list_lookup_imap.
    destruct ctrl; [by rewrite Hj|]. rewrite list_lookup_fmap, Hj. simpl.
    by destruct (_ && _). }
  split; [done|]. split; [|split].
  - unfold clickItems. simpl. rewrite length_imap. destruct ctrl; [done|apply length_map].
  - unfold clickItems. simpl. by rewrite Nat.min_comm, Nat.max_comm.
  - intros -> j it' Hj.
    destruct (its !! j) as [it|] eqn:Hit.
    + rewrite (Hlook j it Hit) in Hj. injection Hj as <-.
      destruct (Nat.min lastIndex clicked <=? j)%nat eqn:E1;
        destruct (j <=? Nat.max lastIndex clicked)%nat eqn:E2; simpl;
        rewrite ?Nat.leb_le, ?Nat.leb_gt in *; split; (done || lia).
    + apply lookup_lt_Some in Hj. apply lookup_ge_None in Hit.
      unfold clickItems in Hj. simpl in Hj. rewrite length_imap, length_map in Hj. lia.
Qed.

Lemma shift_click_selects_range_witness :
  clickItems threeItems (Some 2%nat) 1 (ClickEvent true false) !! 0%nat
  = Some (ValueItem "a" NoValuemap false).
Proof.
  apply (proj1 (shift_click_selects_range threeItems 2 1 false) 0%nat
           (ValueItem "a" NoValuemap true)).
  reflexivity.
Defined.

(** ** Automatic selection *)

Lemma autoSelectCard_idempotent (c : card) :
  autoSelectCard (autoSelectCard c) = autoSelectCard c.
Proof.
  unfold autoSelectCard.
  destruct c as [d e [[m its]|] tn dd]; simpl; [|done].
  destruct e; simpl; [done|].
  destruct its as [|it [|it2 its]]; simpl; done.
Qed.

(** X16: [autoSelectSingleValueDimensions] changes a card only if it is
    mandatory and lists exactly one value, which it selects in specific mode;
    doing it twice is doing it once; and with one card per dimension and no
    codelist on the dimension, the query then holds that single code. *)
Theorem autoSelect_single_value (st : session) :
  autoSelectSingleValueDimensions (autoSelectSingleValueDimensions st)
    = autoSelectSingleValueDimensions st
  /\ (forall c, data_elimination c = true -> autoSelectCard c = c)
  /\ (forall c cont, value_list_container c = Some cont ->
        length (items cont) <> 1%nat -> autoSelectCard c = c)
  /\ (forall c cont singleItem,
        c ∈ cards st -> NoDup (map data_dimension (cards st)) ->
        value_list_container c = Some cont -> data_elimination c = false ->
        items cont = [singleItem] ->
        activeCodelist st (data_dimension c) = None ->
        getVariableSelection (autoSelectSingleValueDimensions st) !! data_dimension c
        = Some (QCodes [data_code singleItem])).
Proof.
  split; [|split; [|split]].
  - unfold autoSelectSingleValueDimensions, with_cards. simpl. f_equal.
    rewrite map_map. apply map_ext, autoSelectCard_idempotent.
  - intros c He. unfold autoSelectCard. rewrite He. by destruct (value_list_container c).
  - intros c cont Hcont Hlen. unfold autoSelectCard. rewrite Hcont.
    destruct (data_elimination c); [done|].
    by destruct (items cont) as [|it [|it2 its]].
  - intros c cont singleItem Hc Hnd Hcont He Hitems Hact.
    set (st' := autoSelectSingleValueDimensions st).
    assert (Hdim : forall x, data_dimension (autoSelectCard x) = data_dimension x).
    { intros x. unfold autoSelectCard. destruct (value_list_container x) as [ct|]; [|done].
      destruct (data_elimination x); [done|]. by destruct (items ct) as [|? [|? ?]]. }
    assert (Hdims : map data_dimension (cards st') = map data_dimension (cards st)).
    { unfold st'. simpl. rewrite map_map. by apply map_ext. }
    assert (Hin : autoSelectCard c ∈ cards st').
    { unfold st'. simpl. by apply list_elem_of_fmap_2. }
    rewrite <- (Hdim c).
    rewrite (getVariableSelection_card st' (autoSelectCard c)) by by rewrite ?Hdims.
    unfold autoSelectCard. rewrite Hcont, He, Hitems.
    unfold cardSelection. simpl. unfold specificValues, selectedValues. simpl.
    change (activeCodelist st' (data_dimension c)) with (activeCodelist st (data_dimension c)).
    rewrite Hact. unfold selectedItems. simpl.
    destruct (isTimeDim (data_dimension c)); [|done].
    by destruct (categoryIndex st' (data_dimension c)).
Qed.

Lemma autoSelect_single_value_witness :
  getVariableSelection
    (autoSelectSingleValueDimensions
       (Session (tableMetadata regionOmitted) ∅ ∅ ∅
          [regionCard;
           Card "ContentsCode" false
                (Some (Container "specific" [ValueItem "Personer" NoValuemap false]))
                None None] true []))
    !! "ContentsCode"
  = Some (QCodes ["Personer"]).
Proof.
  apply (proj2 (proj2 (proj2 (autoSelect_single_value
           (Session (tableMetadata regionOmitted) ∅ ∅ ∅
              [regionCard;
               Card "ContentsCode" false
                    (Some (Container "specific" [ValueItem "Personer" NoValuemap false]))
                    None None] true []))))
           (Card "ContentsCode" false
                 (Some (Container "specific" [ValueItem "Personer" NoValuemap false]))
                 None None)
           (Container "specific" [ValueItem "Personer" NoValuemap false])
           (ValueItem "Personer" NoValuemap false)).
  - right. left.
  - simpl. by apply (bool_decide_unpack _).
  - reflexivity.
  - reflexivity.
  - reflexivity.
  - reflexivity.
Defined.

(** ** Restoring a saved selection *)

Lemma takeDigits_all (s : string) :
  allDigits s = true -> takeDigits (s ++ ")") = s.
Proof.
  induction s as [|ch s IH]; [done|]. simpl.
  intros [Hd Hs]%andb_prop. rewrite Hd. f_equal. by apply IH.
Qed.

Lemma prefix_append (p s : string) : String.prefix p (p ++ s) = true.
Proof.
  induction p as [|a p IH]; simpl; [by destruct s|].
  destruct (Ascii.ascii_dec a a); [done|congruence].
Qed.

(** The number of a top(n) string is read back. *)
Lemma firstDigits_top (v : string) :
  v <> "" -> allDigits v = true -> firstDigits ("top(" ++ v ++ ")") = Some v.
Proof.
  intros Hv Hd. destruct v as [|ch v]; [done|]. simpl in *.
  apply andb_prop in Hd as [Hch Hd]. rewrite Hch. f_equal. f_equal.
  by apply takeDigits_all.
Qed.

Lemma restored_codes (its : list valueItem) (vals : list string) :
  NoDup (map data_code its) ->
  (forall x, x ∈ map data_code its ->
     (x ∈ vals <-> x ∈ map data_code (List.filter selected its))) ->
  map data_code
      (List.filter selected
         (map (fun item => if bool_decide (data_code item ∈ vals)
                           then setSelected true item else item)
              (map (fun it => ValueItem (data_code it) (data_valuemap it) false) its)))
  = map data_code (List.filter selected its).
Proof.
  induction its as [|it its IH]; intros Hnd Hvals; [done|].
  simpl in Hnd. apply NoDup_cons in Hnd as [Hit Hnd].
  assert (Htail : forall x, x ∈ map data_code its ->
            (x ∈ vals <-> x ∈ map data_code (List.filter selected its))).
  { intros x Hx. rewrite (Hvals x) by (simpl; by right). simpl.
    destruct (selected it); [|done]. simpl. rewrite elem_of_cons.
    split; [|tauto]. intros [->|]; [done|done]. }
  specialize (IH Hnd Htail). simpl.
  destruct (selected it) eqn:Hsel; simpl.
  - rewrite bool_decide_eq_true_2; [simpl; by rewrite IH|].
    apply (Hvals (data_code it)); simpl; [left|]. rewrite Hsel. simpl. left.
  - rewrite bool_decide_eq_false_2; [simpl; by rewrite IH|].
    intros Hin. apply (Hvals (data_code it)) in Hin; [|simpl; left].
    simpl in Hin. rewrite Hsel in Hin. apply Hit.
    apply list_elem_of_fmap in Hin as (y & -> & Hy).
    apply list_elem_of_fmap_2. apply list_elem_of_In, filter_In in Hy as [Hy _].
    by apply list_elem_of_In.
Qed.

Lemma specificValues_restored (st : session) (c : card) (cont : container)
    (vals : list string) :
  activeCodelist st (data_dimension c) = None ->
  NoDup (map data_code (items cont)) ->
  (forall x, x ∈ vals <-> x ∈ map data_code (selectedItems cont)) ->
  specificValues st
    (Card (data_dimension c) (data_elimination c)
       (Some (Container "specific"
          (map (fun item => if bool_decide (data_code item ∈ vals)
                            then setSelected true item else item)
               (map (fun it => ValueItem (data_code it) (data_valuemap it) false)
                    (items cont))))) (top_n_input c) (codelist_dropdown c))
    (Container "specific"
       (map (fun item => if bool_decide (data_code item ∈ vals)
                         then setSelected true item else item)
            (map (fun it => ValueItem (data_code it) (data_valuemap it) false)
                 (items cont))))
  = specificValues st c cont.
Proof.
  intros Hact Hnd Hvals. unfold specificValues, selectedValues. simpl. rewrite Hact.
  unfold selectedItems. simpl. rewrite restored_codes; [done|done|].
  intros x _. apply Hvals.
Qed.

(** A saved value written back onto the fresh card of its dimension gives the
    value again. *)
Lemma restoreCard_roundtrip (st : session) (c : card) (cont : container)
    (savedSelection : gmap string qvalue) :
  value_list_container c = Some cont ->
  activeCodelist st (data_dimension c) = None ->
  NoDup (map data_code (items cont)) ->
  (data_mode cont = "top" -> forall s, top_n_input c = Some s -> s <> "" ->
     allDigits s = true) ->
  savedSelection !! data_dimension c = cardSelection st c ->
  cardSelection st (restoreCard savedSelection (resetSelection c)) = cardSelection st c.
Proof.
  intros Hcont Hact Hnd Htop Hsaved.
  unfold restoreCard, resetSelection. rewrite Hcont. simpl. rewrite Hsaved.
  destruct (decide (data_mode cont = "star")) as [Hstar|Hstar].
  { assert (Hcs : cardSelection st c = Some (QString "*")).
    { unfold cardSelection. by rewrite Hcont, decide_True, Hact. }
    rewrite Hcs. simpl. unfold cardSelection. simpl. by rewrite Hact. }
  destruct (decide (data_mode cont = "top")) as [Hmode|Hmode].
  { assert (Hcs : cardSelection st c
                  = Some (QString ("top(" ++ value_or (top_n_input c) "10" ++ ")"))).
    { unfold cardSelection. rewrite Hcont, decide_False by done. by rewrite decide_True. }
    rewrite Hcs.
    assert (Hv : value_or (top_n_input c) "10" <> ""
                 /\ allDigits (value_or (top_n_input c) "10") = true).
    { unfold value_or. destruct (top_n_input c) as [s|] eqn:Hs; [|done].
      destruct (decide (s = "")); [done|]. split; [done|]. by apply (Htop Hmode s). }
    destruct Hv as [Hne Hdig].
    rewrite decide_False by discriminate.
    rewrite decide_False by discriminate.
    rewrite prefix_append.
    rewrite firstDigits_top by done. simpl. unfold cardSelection. simpl.
    do 3 f_equal. unfold value_or in *.
    destruct (top_n_input c) as [s|]; simpl; [|done].
    destruct (decide (s = "")) as [->|Hs].
    - by rewrite decide_False.
    - by rewrite decide_False. }
  assert (Hcs : cardSelection st c
                = if data_elimination c && bool_decide (specificValues st c cont = [])
                  then None else Some (QCodes (specificValues st c cont))).
  { unfold cardSelection. rewrite Hcont, decide_False by done. by rewrite decide_False. }
  rewrite Hcs.
  set (values := specificValues st c cont).
  assert (Hfresh : forall its,
            selectedItems (Container "specific"
              (map (fun it => ValueItem (data_code it) (data_valuemap it) false) its)) = []).
  { intros its. unfold selectedItems. simpl. induction its as [|x l IH]; [done|]. exact IH. }
  assert (Hempty : values = [] ->
            specificValues st
              (Card (data_dimension c) (data_elimination c)
                 (Some (Container "specific"
                    (map (fun it => ValueItem (data_code it) (data_valuemap it) false)
                         (items cont)))) (top_n_input c) (codelist_dropdown c))
              (Container "specific"
                 (map (fun it => ValueItem (data_code it) (data_valuemap it) false)
                      (items cont))) = []).
  { intros _. unfold specificValues, selectedValues. simpl.
    rewrite Hact, Hfresh. simpl.
    destruct (isTimeDim (data_dimension c)); [|done].
    by destruct (categoryIndex st (data_dimension c)). }
  destruct (data_elimination c && bool_decide (values = [])) eqn:Hom.
  { apply andb_prop in Hom as [He Hv]. apply bool_decide_eq_true in Hv.
    unfold cardSelection. simpl. rewrite (Hempty Hv), He. done. }
  destruct (decide (values = [])) as [Hv|Hv].
  { rewrite bool_decide_eq_true_2 by done.
    unfold cardSelection. simpl. rewrite (Hempty Hv).
    rewrite Hv in Hom. rewrite bool_decide_eq_true_2 in Hom by done.
    rewrite andb_true_r in Hom. by rewrite Hom, Hv. }
  rewrite bool_decide_eq_false_2 by done.
  unfold cardSelection. simpl.
  rewrite (specificValues_restored st c cont values) by
    (try done; intros x; unfold values;
     rewrite (specificValues_Permutation st c cont); unfold selectedValues;
     by rewrite Hact).
  fold values. by rewrite Hom.
Qed.

(** X17: the saved selection is restored faithfully. With one card per
    dimension, no active codelist, distinct codes in every value list and
    only digits in the top-n input of a card in top mode, writing the query
    object of a session back onto freshly rendered cards (specific mode,
    nothing selected) and building the query again gives the same query
    object: star stays "*", top(n) keeps its n, and exactly the same codes
    are selected. *)
Theorem restoreSelections_roundtrip (st : session) :
  NoDup (map data_dimension (cards st)) ->
  (forall c cont, c ∈ cards st -> value_list_container c = Some cont ->
     activeCodelist st (data_dimension c) = None
     /\ NoDup (map data_code (items cont))
     /\ (data_mode cont = "top" -> forall s, top_n_input c = Some s -> s <> "" ->
           allDigits s = true)) ->
  getVariableSelection
    (restoreValueSelections (getVariableSelection st) (freshCards st))
  = getVariableSelection st.
Proof.
  intros Hnd Hcards.
  set (saved := getVariableSelection st).
  set (st' := restoreValueSelections saved (freshCards st)).
  assert (Hdim : forall c, data_dimension (restoreCard saved (resetSelection c))
                           = data_dimension c).
  { intros c. unfold restoreCard, resetSelection.
    destruct c as [d e [ct|] tn dd]; simpl; [|done].
    destruct (saved !! d) as [[l|s]|]; [| |done].
    - by destruct (bool_decide (l = [])).
    - destruct (decide (s = "")); [done|]. destruct (decide (s = "*")); [done|].
      by destruct (String.prefix "top(" s). }
  assert (Hcs : cards st' = map (fun c => restoreCard saved (resetSelection c)) (cards st)).
  { unfold st'. simpl. by rewrite map_map. }
  assert (Hdims : map data_dimension (cards st') = map data_dimension (cards st)).
  { rewrite Hcs, map_map. by apply map_ext. }
  apply map_eq. intros d.
  destruct (decide (d ∈ map data_dimension (cards st))) as [Hin|Hout].
  - apply list_elem_of_fmap in Hin as (c & -> & Hc).
    trans (cardSelection st c); [|symmetry; by apply getVariableSelection_card].
    rewrite <- (Hdim c).
    rewrite (getVariableSelection_card st' (restoreCard saved (resetSelection c))).
    + destruct (value_list_container c) as [cont|] eqn:Hcont.
      * destruct (Hcards c cont Hc Hcont) as (Hact & Hcodes & Htop).
        change (cardSelection st' ?x) with (cardSelection st x).
        apply (restoreCard_roundtrip st c cont); try done.
        unfold saved. by apply getVariableSelection_card.
      * clear -Hcont. by destruct c as [d e [ct|] tn dd].
    + by rewrite Hdims.
    + rewrite Hcs. by apply (list_elem_of_fmap_2 (fun c => restoreCard saved (resetSelection c))).
  - trans (@None qvalue).
    + unfold getVariableSelection.
      etrans; [apply selection_fold_other; by rewrite Hdims|apply lookup_empty].
    + symmetry. unfold getVariableSelection.
      etrans; [by apply selection_fold_other|apply lookup_empty].
Qed.

Lemma restoreSelections_roundtrip_witness :
  getVariableSelection
    (restoreValueSelections (getVariableSelection tidNewestFirst)
       (freshCards tidNewestFirst))
  = getVariableSelection tidNewestFirst.
Proof.
  apply (restoreSelections_roundtrip tidNewestFirst).
  - apply NoDup_singleton.
  - intros c cont Hc Hcont. apply list_elem_of_singleton in Hc. subst c.
    injection Hcont as <-. split; [reflexivity|]. split.
    + by apply (bool_decide_unpack _).
    + discriminate.
Defined.

(** Under an aggregating codelist the saved codes are base codes, which the
    codelist's entries do not carry: nothing is selected again. *)
Example restoreSelections_aggregated_lost :
  getVariableSelection alderGrouped !! "Alder" = Some (QCodes ["00-19"; "20-39"; "40-66"])
  /\ getVariableSelection
       (restoreValueSelections (getVariableSelection alderGrouped)
          (freshCards alderGrouped)) !! "Alder"
     = Some (QCodes []).
Proof. split; vm_compute; reflexivity. Qed.

(** ** The cell count *)

Lemma getTrueDimensionValueCount_nonneg (st : session) (d : string) :
  0 <= getTrueDimensionValueCount st d.
Proof.
  unfold getTrueDimensionValueCount. destruct (activeCodelist st d); [lia|].
  destruct (tableMetadata st) as [md|]; [|lia].
  destruct (md_dimension md !! d); lia.
Qed.

(** What the loop of [updateSelectionCellCount] has computed after some
    cards: the product stays positive, and the two flags record whether a
    card was counted and whether a counted mandatory card selects nothing. *)
Lemma cellCount_loop (st : session) (cs : list card) (acc : cellCount) :
  1 <= selectedCells acc -> 0 <= maxCells acc ->
  1 <= selectedCells (foldl (cellCountStep st) acc cs)
  /\ 0 <= maxCells (foldl (cellCountStep st) acc cs)
  /\ (hasIncludedDimension (foldl (cellCountStep st) acc cs) = true <->
      hasIncludedDimension acc = true \/
      exists c cont, c ∈ cs /\ value_list_container c = Some cont
                     /\ skippedCard c cont = false)
  /\ (hasMissingMandatory (foldl (cellCountStep st) acc cs) = true <->
      hasMissingMandatory acc = true \/
      exists c cont, c ∈ cs /\ value_list_container c = Some cont
                     /\ skippedCard c cont = false /\ data_elimination c = false
                     /\ dimSelectedCount st c cont = Num 0).
Proof.
  revert acc. induction cs as [|c cs IH]; intros acc Hsel Hmax; simpl.
  - split; [done|]. split; [done|]. split; (split; [by left|]);
      (intros [?|(c & cont & Hc & _)]; [done|by apply elem_of_nil in Hc]).
  - assert (Hstep : 1 <= selectedCells (cellCountStep st acc c)
                    /\ 0 <= maxCells (cellCountStep st acc c)).
    { unfold cellCountStep. destruct (value_list_container c) as [cont|]; [|done].
      destruct (skippedCard c cont); [done|]. simpl. split.
      - destruct (dimSelectedCount st c cont) as [z|]; [|done].
        destruct (decide (0 < z)); [nia|done].
      - pose proof (getTrueDimensionValueCount_nonneg st (data_dimension c)). nia. }
    destruct Hstep as [Hsel' Hmax'].
    destruct (IH (cellCountStep st acc c) Hsel' Hmax') as (H1 & H2 & H3 & H4).
    split; [done|]. split; [done|]. split.
    + rewrite H3. unfold cellCountStep.
      destruct (value_list_container c) as [cont|] eqn:Hcont.
      * destruct (skippedCard c cont) eqn:Hskip; simpl.
        -- split.
           ++ intros [?|(c' & cont' & Hc' & ?)]; [by left|].
              right. exists c', cont'. split; [by right|done].
           ++ intros [?|(c' & cont' & [->|Hc']%elem_of_cons & Hct & Hsk)]; [by left| |].
              ** rewrite Hcont in Hct. injection Hct as <-. congruence.
              ** right. by exists c', cont'.
        -- split; [|by left]. intros _. right. exists c, cont. split; [left|done].
      * split.
        -- intros [?|(c' & cont' & Hc' & ?)]; [by left|].
           right. exists c', cont'. split; [by right|done].
        -- intros [?|(c' & cont' & [->|Hc']%elem_of_cons & Hct & Hsk)]; [by left| |].
           ++ congruence.
           ++ right. by exists c', cont'.
    + rewrite H4. unfold cellCountStep.
      destruct (value_list_container c) as [cont|] eqn:Hcont.
      * destruct (skippedCard c cont) eqn:Hskip; simpl.
        -- split.
           ++ intros [?|(c' & cont' & Hc' & ?)]; [by left|].
              right. exists c', cont'. split; [by right|done].
           ++ intros [?|(c' & cont' & [->|Hc']%elem_of_cons & Hct & Hsk & ?)]; [by left| |].
              ** rewrite Hcont in Hct. injection Hct as <-. congruence.
              ** right. by exists c', cont'.
        -- rewrite orb_true_iff, andb_true_iff, bool_decide_eq_true, negb_true_iff. split.
           ++ intros [[?|[? ?]]|(c' & cont' & Hc' & ?)].
              ** by left.
              ** right. exists c, cont. split; [left|done].
              ** right. exists c', cont'. split; [by right|done].
           ++ intros [?|(c' & cont' & [->|Hc']%elem_of_cons & Hct & Hsk & He & Hn)].
              ** left. by left.
              ** rewrite Hcont in Hct. injection Hct as <-. left. by right.
              ** right. by exists c', cont'.
      * split.
        -- intros [?|(c' & cont' & Hc' & ?)]; [by left|].
           right. exists c', cont'. split; [by right|done].
        -- intros [?|(c' & cont' & [->|Hc']%elem_of_cons & Hct & ?)]; [by left| |].
           ++ congruence.
           ++ right. by exists c', cont'.
Qed.

(** X18: the estimated cell count is never negative, and it is 0 exactly
    when the display element or the metadata is missing, when no card is
    counted (every card is without list, or optional with nothing selected in
    specific mode), or when some counted mandatory card selects nothing;
    otherwise it is at least 1. *)
Theorem updateSelectionCellCount_zero (st : session) :
  0 <= updateSelectionCellCount st
  /\ (updateSelectionCellCount st = 0 <->
      cell_count_display st = false \/ tableMetadata st = None
      \/ (forall c cont, c ∈ cards st -> value_list_container c = Some cont ->
            skippedCard c cont = true)
      \/ exists c cont, c ∈ cards st /\ value_list_container c = Some cont
                        /\ skippedCard c cont = false /\ data_elimination c = false
                        /\ dimSelectedCount st c cont = Num 0).
Proof.
  unfold updateSelectionCellCount, cellTotals.
  destruct (cellCount_loop st (cards st) (CellCount 1 1 false false))
    as (Hsel & _ & Hinc & Hmiss); [simpl; lia..|].
  simpl in Hinc, Hmiss.
  destruct (cell_count_display st); [|split; [lia|tauto]].
  destruct (tableMetadata st) as [md|]; [|split; [lia|tauto]].
  destruct (hasIncludedDimension _) eqn:Ei; simpl.
  - destruct (hasMissingMandatory _) eqn:Em; simpl.
    + split; [lia|]. split; [|done]. intros _. right. right. right.
      destruct (proj1 Hmiss eq_refl) as [?|?]; done.
    + split; [lia|]. split; [lia|].
      intros [?|[?|[Hall|Hex]]]; try done.
      * destruct (proj1 Hinc eq_refl) as [?|(c & cont & Hc & Hct & Hsk)]; [done|].
        rewrite (Hall c cont Hc Hct) in Hsk. done.
      * assert (false = true) by (apply Hmiss; by right). done.
  - split; [lia|]. split; [|done]. intros _. right. right. left.
    intros c cont Hc Hct. destruct (skippedCard c cont) eqn:Hsk; [done|].
    assert (false = true) by (apply Hinc; right; by exists c, cont). done.
Qed.

(** ** The order of the dimension cards *)

(** X19: when the heading and stub lists name each dimension of the table at
    most once and nothing else, the cards are exactly the table's dimensions,
    each once, with heading and stub first. *)
Theorem getDimensionDisplayOrder_permutation
    (heading stub : option (list string)) (id : list string) :
  NoDup id ->
  NoDup (default [] heading ++ default [] stub) ->
  (forall d, d ∈ default [] heading ++ default [] stub -> d ∈ id) ->
  getDimensionDisplayOrder heading stub id ≡ₚ id
  /\ take (length (default [] heading ++ default [] stub))
       (getDimensionDisplayOrder heading stub id)
     = default [] heading ++ default [] stub.
Proof.
  intros Hid Hord Hsub. unfold getDimensionDisplayOrder.
  set (ordered := default [] heading ++ default [] stub) in *.
  split; [|by rewrite take_app_length].
  apply NoDup_Permutation; [|done|].
  - apply NoDup_app. split; [done|]. split.
    + intros d Hd [Hn _]%list_elem_of_filter. done.
    + by apply NoDup_filter.
  - intros d. rewrite elem_of_app, list_elem_of_filter. split.
    + intros [Hd|[_ Hd]]; [by apply Hsub|done].
    + intros Hd. destruct (decide (d ∈ ordered)); [by left|by right].
Qed.

Lemma getDimensionDisplayOrder_permutation_witness :
  getDimensionDisplayOrder (Some ["Tid"]) (Some ["Region"; "Kjonn"])
    ["Region"; "Kjonn"; "ContentsCode"; "Tid"]
  ≡ₚ ["Region"; "Kjonn"; "ContentsCode"; "Tid"]
  /\ take 3 (getDimensionDisplayOrder (Some ["Tid"]) (Some ["Region"; "Kjonn"])
               ["Region"; "Kjonn"; "ContentsCode"; "Tid"])
     = ["Tid"; "Region"; "Kjonn"].
Proof.
  apply (getDimensionDisplayOrder_permutation
           (Some ["Tid"]) (Some ["Region"; "Kjonn"])
           ["Region"; "Kjonn"; "ContentsCode"; "Tid"]).
  - by apply (bool_decide_unpack _).
  - by apply (bool_decide_unpack _).
  - intros d Hd. simpl in Hd.
    apply elem_of_cons in Hd as [->|Hd]; [by apply (bool_decide_unpack _)|].
    apply elem_of_cons in Hd as [->|Hd]; [by apply (bool_decide_unpack _)|].
    apply elem_of_cons in Hd as [->|Hd]; [by apply (bool_decide_unpack _)|].
    by apply elem_of_nil in Hd.
Defined.

(** A dimension that only the heading names still gets a card. *)
Example getDimensionDisplayOrder_unknown :
  getDimensionDisplayOrder (Some ["Tid"; "Alder"]) None ["Kjonn"; "Tid"]
  = ["Tid"; "Alder"; "Kjonn"].
Proof. reflexivity. Qed.

(** ** Escaping *)

Lemma replaceAll_app (c : ascii) (r s t : string) :
  replaceAll c r (s ++ t)%string = (replaceAll c r s ++ replaceAll c r t)%string.
Proof.
  induction s as [|a s IH]; simpl; [done|].
  destruct (Ascii.eqb a c); simpl; rewrite IH; [|done].
  generalize (replaceAll c r s) (replaceAll c r t). clear. intros u v.
  induction r as [|b r IH]; [done|]. change (String b (r ++ (u ++ v)) = String b ((r ++ u) ++ v))%string. by f_equal.
Qed.

(** The five replacements in sequence escape character by character: no
    later replacement touches what an earlier one wrote. *)
Lemma escapeHtml_cons (a : ascii) (s : string) :
  escapeHtml (Some (String a s)) = (escapeChar a ++ escapeHtml (Some s))%string.
Proof.
  unfold escapeChar, escapeHtml.
  change (String a s) with (String a "" ++ s)%string.
  by rewrite !replaceAll_app.
Qed.

Lemma escapeChar_cases (a : ascii) :
  ((a ∉ ("&"%char :: markup)) /\ escapeChar a = String a "")
  \/ (a = "&"%char /\ escapeChar a = "&amp;")
  \/ (a = "<"%char /\ escapeChar a = "&lt;")
  \/ (a = ">"%char /\ escapeChar a = "&gt;")
  \/ (a = "034"%char /\ escapeChar a = "&quot;")
  \/ (a = "'"%char /\ escapeChar a = "&#39;").
Proof.
  unfold escapeChar, escapeHtml, markup.
  destruct (Ascii.eqb_spec a "&") as [->|H1]; [right; left; done|].
  destruct (Ascii.eqb_spec a "<") as [->|H2]; [right; right; left; done|].
  destruct (Ascii.eqb_spec a ">") as [->|H3]; [do 3 right; left; done|].
  destruct (Ascii.eqb_spec a "034") as [->|H4]; [do 4 right; left; done|].
  destruct (Ascii.eqb_spec a "'") as [->|H5]; [do 5 right; done|].
  left. split.
  - rewrite !elem_of_cons, elem_of_nil. tauto.
  - simpl. apply Ascii.eqb_neq in H1, H2, H3, H4, H5.
    rewrite H1. simpl. rewrite H2. simpl. rewrite H3. simpl. rewrite H4. simpl.
    by rewrite H5.
Qed.

Lemma list_ascii_of_string_app (s t : string) :
  list_ascii_of_string (s ++ t)%string = list_ascii_of_string s ++ list_ascii_of_string t.
Proof. induction s as [|a s IH]; simpl; [done|]. by rewrite IH. Qed.

(** X20: the escaped text contains no [<], [>], double quote or apostrophe,
    whatever the input ([null] and [undefined] included). *)
Theorem escapeHtml_no_markup (text : option string) :
  Forall (fun c => c ∉ markup) (list_ascii_of_string (escapeHtml text)).
Proof.
  destruct text as [s|]; [|by constructor].
  induction s as [|a s IH]; [by constructor|].
  rewrite escapeHtml_cons, list_ascii_of_string_app. apply Forall_app. split; [|done].
  destruct (escapeChar_cases a) as [[Ha ->]|[[_ ->]|[[_ ->]|[[_ ->]|[[_ ->]|[_ ->]]]]]].
  - constructor; [|constructor]. intros Hm. apply Ha. by right.
  - repeat constructor; by apply (bool_decide_unpack _).
  - repeat constructor; by apply (bool_decide_unpack _).
  - repeat constructor; by apply (bool_decide_unpack _).
  - repeat constructor; by apply (bool_decide_unpack _).
  - repeat constructor; by apply (bool_decide_unpack _).
Qed.

(** The entities form a prefix code. *)
Lemma escapeChar_prefix_free (a b : ascii) (u v : string) :
  (escapeChar a ++ u)%string = (escapeChar b ++ v)%string -> a = b /\ u = v.
Proof.
  intros Heq.
  destruct (escapeChar_cases a) as [[Hna Ha]|[[-> Ha]|[[-> Ha]|[[-> Ha]|[[-> Ha]|[-> Ha]]]]]];
    destruct (escapeChar_cases b) as [[Hnb Hb]|[[-> Hb]|[[-> Hb]|[[-> Hb]|[[-> Hb]|[-> Hb]]]]]];
    rewrite Ha in Heq; rewrite ?Hb in Heq; cbv [String.append] in Heq; fold String.append in Heq;
    try discriminate Heq;
    try (injection Heq as Heq; by split);
    try (injection Heq as -> Heq; by split);
    try (injection Heq as Hc _; exfalso; apply Hnb; rewrite <- Hc; by left);
    try (injection Heq as Hc _; exfalso; apply Hna; rewrite Hc; by left).
Qed.

(** X21: escaping loses nothing: different texts have different escaped
    forms. *)
Theorem escapeHtml_injective (s t : string) :
  s <> t -> escapeHtml (Some s) <> escapeHtml (Some t).
Proof.
  intros Hne Heq. apply Hne. clear Hne.
  revert t Heq. induction s as [|a s IH]; intros [|b t] Heq.
  - done.
  - rewrite escapeHtml_cons in Heq. exfalso.
    destruct (escapeChar_cases b) as [[_ Hb]|[[_ Hb]|[[_ Hb]|[[_ Hb]|[[_ Hb]|[_ Hb]]]]]];
      rewrite Hb in Heq; discriminate Heq.
  - rewrite escapeHtml_cons in Heq. exfalso.
    destruct (escapeChar_cases a) as [[_ Ha]|[[_ Ha]|[[_ Ha]|[[_ Ha]|[[_ Ha]|[_ Ha]]]]]];
      rewrite Ha in Heq; discriminate Heq.
  - rewrite !escapeHtml_cons in Heq.
    apply escapeChar_prefix_free in Heq as [-> Heq]. f_equal. by apply IH.
Qed.

Lemma escapeHtml_injective_witness :
  "a<b" <> "a&lt;b"
  /\ escapeHtml (Some "a<b") <> escapeHtml (Some "a&lt;b").
Proof.
  split; [discriminate|].
  apply (escapeHtml_injective "a<b" "a&lt;b"). discriminate.
Defined.

Example escapeHtml_twice :
  escapeHtml (Some "a<b") = "a&lt;b"
  /\ escapeHtml (Some (escapeHtml (Some "a<b"))) = "a&amp;lt;b".
Proof. split; reflexivity. Qed.
